(** * Shadow-admin finder: a shallow embedding of [find_shadow_admins]

    The evaluator of [src/main.py] walks a dictionary from user names to
    permission lists and keeps the users whose list contains every
    permission of the effective-admin profile.  The model below follows
    the Python text: values are the ones [json.load] hands over, the
    operations that can raise in Python ([.items()], [in], iteration)
    return an outcome, and every call to [logging] is recorded.  The
    evaluator is given twice: with [==] run to the end, and under the
    recursion limit of the interpreter, where a comparison nested too
    deep raises.  The command line around the evaluator
    ([load_permissions_data], [save_results], [display_results], [main])
    is modelled over the trace of what the process logs, writes and
    prints; what files, the JSON reader and [rich] do is given by a
    [world]. *)

From Stdlib Require Import List String Ascii Bool ZArith Lia.
Import ListNotations.
Local Open Scope string_scope.
Local Open Scope list_scope.

Set Implicit Arguments.

(** ** Values *)

Module Py.

(** The values the two arguments are made of: what [json.load] builds out
    of a JSON document without floating point numbers.  A [dict] keeps
    its items in insertion order and its keys are strings. *)
Unset Elimination Schemes.
Inductive pyval : Type :=
| VNone : pyval
| VBool : bool -> pyval
| VInt : Z -> pyval
| VStr : string -> pyval
| VList : list pyval -> pyval
| VDict : list (string * pyval) -> pyval.
Set Elimination Schemes.

(** Induction with the hypotheses for the values nested in a list or in
    the items of a dict. *)
Definition pyval_ind (P : pyval -> Prop)
    (HNone : P VNone)
    (HBool : forall b, P (VBool b))
    (HInt : forall z, P (VInt z))
    (HStr : forall s, P (VStr s))
    (HList : forall l, Forall P l -> P (VList l))
    (HDict : forall d, Forall (fun kv => P (snd kv)) d -> P (VDict d)) :
  forall v, P v :=
  fix go (v : pyval) : P v :=
    match v with
    | VNone => HNone
    | VBool b => HBool b
    | VInt z => HInt z
    | VStr s => HStr s
    | VList l =>
        HList l ((fix elems (l : list pyval) : Forall P l :=
                    match l with
                    | [] => Forall_nil _
                    | x :: l' => Forall_cons x (go x) (elems l')
                    end) l)
    | VDict d =>
        HDict d ((fix items (d : list (string * pyval))
                    : Forall (fun kv => P (snd kv)) d :=
                    match d with
                    | [] => Forall_nil _
                    | kv :: d' =>
                        @Forall_cons _ (fun kv => P (snd kv)) kv d'
                          (go (snd kv)) (items d')
                    end) d)
    end.

(** [d[key]] as a lookup: the value of the first item with that key. *)
Fixpoint dict_get (A : Type) (d : list (string * A)) (key : string)
  : option A :=
  match d with
  | [] => None
  | (k, v) :: d' => if String.eqb k key then Some v else dict_get d' key
  end.

(** [list(d.keys())]. *)
Definition dict_keys (A : Type) (d : list (string * A)) : list string :=
  map fst d.

(** [del d[key]]: the item with that key is dropped, the others keep
    their order. *)
Fixpoint dict_del (A : Type) (d : list (string * A)) (key : string)
  : list (string * A) :=
  match d with
  | [] => []
  | (k, v) :: d' =>
      if String.eqb k key then d' else (k, v) :: dict_del d' key
  end.

(** [d[key] = v]: an existing key keeps its place, a new key goes last. *)
Fixpoint dict_set (A : Type) (d : list (string * A)) (key : string) (v : A)
  : list (string * A) :=
  match d with
  | [] => [(key, v)]
  | (k, w) :: d' =>
      if String.eqb k key then (k, v) :: d' else (k, w) :: dict_set d' key v
  end.

(** The invariant of a Python dict: no key occurs twice. *)
Definition dict_wf (A : Type) (d : list (string * A)) : Prop :=
  NoDup (dict_keys d).

(** The dict invariant, for a value and the values inside it. *)
Fixpoint wf_value (v : pyval) : Prop :=
  match v with
  | VList l =>
      (fix all (l : list pyval) : Prop :=
         match l with
         | [] => True
         | x :: l' => wf_value x /\ all l'
         end) l
  | VDict d =>
      dict_wf d /\
      (fix all (d : list (string * pyval)) : Prop :=
         match d with
         | [] => True
         | kv :: d' => wf_value (snd kv) /\ all d'
         end) d
  | _ => True
  end.

(** Python's [==] on these values.  [bool] is a subclass of [int], so
    [True == 1]; lists compare element by element; two dicts are equal
    when they have as many items and every key of the first has an equal
    value in the second. *)
Fixpoint py_eq (a b : pyval) {struct a} : bool :=
  match a, b with
  | VNone, VNone => true
  | VBool x, VBool y => Bool.eqb x y
  | VBool x, VInt y => Z.eqb (Z.b2z x) y
  | VInt x, VBool y => Z.eqb x (Z.b2z y)
  | VInt x, VInt y => Z.eqb x y
  | VStr x, VStr y => String.eqb x y
  | VList xs, VList ys =>
      (fix elems (xs ys : list pyval) {struct xs} : bool :=
         match xs, ys with
         | [], [] => true
         | x :: xs', y :: ys' => py_eq x y && elems xs' ys'
         | _, _ => false
         end) xs ys
  | VDict xs, VDict ys =>
      Nat.eqb (List.length xs) (List.length ys) &&
      (fix items (xs : list (string * pyval)) : bool :=
         match xs with
         | [] => true
         | (k, v) :: xs' =>
             match dict_get ys k with
             | Some w => py_eq v w
             | None => false
             end && items xs'
         end) xs
  | _, _ => false
  end.

(** [x in l] for a list [l]: some element compares equal to [x].  The
    shortcut Python takes when [x is e] adds nothing: a value with the
    dict invariant is [==] to itself ([py_eq_refl] below). *)
Definition list_contains (l : list pyval) (x : pyval) : bool :=
  existsb (fun e => py_eq e x) l.

(** [all(x in l for x in xs)] for lists: the subset test of the
    evaluator, [set(xs) <= set(l)] in set words. *)
Definition list_issubset (xs l : list pyval) : bool :=
  forallb (list_contains l) xs.

(** [isinstance(v, dict)] and [isinstance(v, list)]. *)
Definition isinstance_dict (v : pyval) : bool :=
  match v with VDict _ => true | _ => false end.

Definition isinstance_list (v : pyval) : bool :=
  match v with VList _ => true | _ => false end.

End Py.

(** ** Outcomes and the log *)

Module Run.

(** The exceptions of the model: the ones the operations of the
    evaluator raise, [RecursionError] for a comparison nested deeper than
    the interpreter allows, [MarkupError] of [rich], and any other class
    by its name. *)
Inductive exn : Type :=
| TypeError
| AttributeError
| RecursionError
| MarkupError
| OtherError : string -> exn.

Inductive outcome (A : Type) : Type :=
| Return : A -> outcome A
| Raise : exn -> outcome A.
Arguments Raise {A} _.

(** The levels of the [logging] module and a record handed to it. *)
Inductive level : Type :=
| DEBUG | INFO | WARNING | ERROR | CRITICAL.

Definition log_record : Type := (level * string)%type.

(** A computation ends with a value or an exception and has emitted the
    records of its log, oldest first. *)
Definition M (A : Type) : Type := (outcome A * list log_record)%type.

Definition ret (A : Type) (a : A) : M A := (Return a, []).

Definition raise (A : Type) (e : exn) : M A := (Raise e, []).
Arguments raise {A} e.

Definition bind (A B : Type) (m : M A) (f : A -> M B) : M B :=
  match m with
  | (Return a, l) => let (r, l') := f a in (r, l ++ l')
  | (Raise e, l) => (Raise e, l)
  end.

Definition emit (lvl : level) (msg : string) : M unit :=
  (Return tt, [(lvl, msg)]).

Arguments ret : simpl never.
Arguments raise : simpl never.
Arguments bind : simpl never.
Arguments emit : simpl never.

(** What the caller receives, and what was logged. *)
Definition result (A : Type) (m : M A) : outcome A := fst m.
Definition log (A : Type) (m : M A) : list log_record := snd m.

End Run.

Import Py Run.

Declare Scope run_scope.
Delimit Scope run_scope with run.
Notation "x <- m ;; k" := (bind m (fun x => k))
  (at level 61, m at next level, right associativity) : run_scope.
Notation "m ;; k" := (bind m (fun _ => k))
  (at level 61, right associativity) : run_scope.
Local Open Scope run_scope.

(** ** The operations of Python the evaluator calls *)

Module Builtins.

(** [needle in hay] for two strings: [needle] occurs in [hay]. *)
Fixpoint str_contains (hay needle : string) : bool :=
  String.prefix needle hay ||
  match hay with
  | EmptyString => false
  | String _ hay' => str_contains hay' needle
  end.

(** [list(s)] for a string: its characters, each a string of length one. *)
Fixpoint str_chars (s : string) : list pyval :=
  match s with
  | EmptyString => []
  | String c s' => VStr (String c EmptyString) :: str_chars s'
  end.

(** [v.items()]: only a dict has the method. *)
Definition py_items (v : pyval) : M (list (string * pyval)) :=
  match v with
  | VDict d => ret d
  | _ => raise AttributeError
  end.

(** [x in container].  A list is searched with [==]; a string accepts
    only a string on the left; a dict looks the key up and refuses an
    unhashable one; any other value is no container.  On a list this is
    the search run to the end; [py_contains_bounded] is the search under
    the recursion limit, which can raise. *)
Definition py_contains (container x : pyval) : M bool :=
  match container with
  | VList l => ret (list_contains l x)
  | VStr s =>
      match x with
      | VStr t => ret (str_contains s t)
      | _ => raise TypeError
      end
  | VDict d =>
      match x with
      | VList _ | VDict _ => raise TypeError
      | VStr k => ret (match dict_get d k with Some _ => true | None => false end)
      | _ => ret false
      end
  | _ => raise TypeError
  end.

(** [iter(v)], run to the end: the elements of a list, the characters of
    a string, the keys of a dict. *)
Definition py_iter (v : pyval) : M (list pyval) :=
  match v with
  | VList l => ret l
  | VStr s => ret (str_chars s)
  | VDict d => ret (map VStr (dict_keys d))
  | _ => raise TypeError
  end.

(** [all(test(x) for x in xs)]: stops at the first false test. *)
Fixpoint py_all (A : Type) (test : A -> M bool) (xs : list A) : M bool :=
  match xs with
  | [] => ret true
  | x :: xs' => b <- test x ;; if b then py_all test xs' else ret false
  end.

Definition logging_error : string -> M unit := emit ERROR.
Definition logging_warning : string -> M unit := emit WARNING.
Definition logging_info : string -> M unit := emit INFO.

End Builtins.

Import Builtins.

(** ** The evaluator *)

(** The body of [for user, permissions in user_permissions.items()],
    with the list [shadow_admins] it appends to passed along. *)
Fixpoint for_items (effective_admin_permissions : pyval)
    (items : list (string * pyval)) (shadow_admins : list string)
  : M (list string) :=
  match items with
  | [] => ret shadow_admins
  | (user, permissions) :: items' =>
      if negb (isinstance_list permissions) then
        logging_warning
          ("User " ++ user ++ " has invalid permissions format. Skipping.") ;;
        for_items effective_admin_permissions items' shadow_admins
      else
        perms <- py_iter effective_admin_permissions ;;
        b <- py_all (fun perm => py_contains permissions perm) perms ;;
        if b then
          let shadow_admins := shadow_admins ++ [user] in
          logging_info ("User " ++ user ++ " identified as a shadow admin.") ;;
          for_items effective_admin_permissions items' shadow_admins
        else
          for_items effective_admin_permissions items' shadow_admins
  end.

Definition find_shadow_admins
    (user_permissions effective_admin_permissions : pyval) : M (list string) :=
  let shadow_admins := [] in
  if negb (isinstance_dict user_permissions) then
    logging_error "Invalid user permissions data. Expected a dictionary." ;;
    ret []
  else if negb (isinstance_list effective_admin_permissions) then
    logging_error "Invalid effective admin permissions data. Expected a list." ;;
    ret []
  else
    items <- py_items user_permissions ;;
    for_items effective_admin_permissions items shadow_admins.

(** ** The evaluator under the recursion limit

    [py_eq] and [list_contains] above are [==] and [in] run to the end.
    In the interpreter every call of the comparison takes one level of
    the recursion budget, and a call with no level left raises
    [RecursionError].  The definitions below are the same operations and
    the same evaluator with that budget, [budget] being the number of
    nested comparisons the interpreter still allows where [in] is
    run. *)

(** The walk of [==] over two lists of equal length: it stops at the
    first pair that differs or raises. *)
Fixpoint all_eq (cmp : pyval -> pyval -> option bool) (xs ys : list pyval)
  : option bool :=
  match xs, ys with
  | [], [] => Some true
  | x :: xs', y :: ys' =>
      match cmp x y with
      | None => None
      | Some true => all_eq cmp xs' ys'
      | Some false => Some false
      end
  | _, _ => Some false
  end.

(** The walk of [==] over the items of the left dict. *)
Fixpoint items_eq (cmp : pyval -> pyval -> option bool)
    (ys xs : list (string * pyval)) : option bool :=
  match xs with
  | [] => Some true
  | (k, v) :: xs' =>
      match dict_get ys k with
      | None => Some false
      | Some w =>
          match cmp v w with
          | None => None
          | Some true => items_eq cmp ys xs'
          | Some false => Some false
          end
      end
  end.

(** [==] with a budget: [None] stands for [RecursionError].  Lists and
    dicts of different sizes are unequal without a look at their
    elements. *)
Fixpoint py_eq_bounded (budget : nat) (a b : pyval) : option bool :=
  match budget with
  | O => None
  | S budget' =>
      match a, b with
      | VList xs, VList ys =>
          if Nat.eqb (List.length xs) (List.length ys)
          then all_eq (py_eq_bounded budget') xs ys
          else Some false
      | VDict xs, VDict ys =>
          if Nat.eqb (List.length xs) (List.length ys)
          then items_eq (py_eq_bounded budget') ys xs
          else Some false
      | _, _ => Some (py_eq a b)
      end
  end.

(** [x in l] with a budget: the search stops at the first element that
    is equal or whose comparison raises. *)
Fixpoint list_contains_bounded (budget : nat) (l : list pyval) (x : pyval)
  : option bool :=
  match l with
  | [] => Some false
  | e :: l' =>
      match py_eq_bounded budget e x with
      | None => None
      | Some true => Some true
      | Some false => list_contains_bounded budget l' x
      end
  end.

Definition py_contains_bounded (budget : nat) (container x : pyval)
  : M bool :=
  match container with
  | VList l =>
      match list_contains_bounded budget l x with
      | Some b => ret b
      | None => raise RecursionError
      end
  | _ => py_contains container x
  end.

Fixpoint for_items_bounded (budget : nat)
    (effective_admin_permissions : pyval)
    (items : list (string * pyval)) (shadow_admins : list string)
  : M (list string) :=
  match items with
  | [] => ret shadow_admins
  | (user, permissions) :: items' =>
      if negb (isinstance_list permissions) then
        logging_warning
          ("User " ++ user ++ " has invalid permissions format. Skipping.") ;;
        for_items_bounded budget effective_admin_permissions items'
          shadow_admins
      else
        perms <- py_iter effective_admin_permissions ;;
        b <- py_all (fun perm => py_contains_bounded budget permissions perm)
               perms ;;
        if b then
          let shadow_admins := shadow_admins ++ [user] in
          logging_info ("User " ++ user ++ " identified as a shadow admin.") ;;
          for_items_bounded budget effective_admin_permissions items'
            shadow_admins
        else
          for_items_bounded budget effective_admin_permissions items'
            shadow_admins
  end.

Definition find_shadow_admins_bounded (budget : nat)
    (user_permissions effective_admin_permissions : pyval) : M (list string) :=
  let shadow_admins := [] in
  if negb (isinstance_dict user_permissions) then
    logging_error "Invalid user permissions data. Expected a dictionary." ;;
    ret []
  else if negb (isinstance_list effective_admin_permissions) then
    logging_error "Invalid effective admin permissions data. Expected a list." ;;
    ret []
  else
    items <- py_items user_permissions ;;
    for_items_bounded budget effective_admin_permissions items shadow_admins.



(** The inputs of the scenarios of the specification. *)
Definition items_alice_bob : list (string * pyval) :=
  [ ("alice", VList [VStr "/etc/shadow"; VStr "/etc/sudoers";
                     VStr "/var/log/auth.log"]);
    ("bob", VList [VStr "/home/bob/file1"]) ].

Definition users_alice_bob : pyval := VDict items_alice_bob.

Definition perms_shadow_sudoers : list pyval :=
  [VStr "/etc/shadow"; VStr "/etc/sudoers"].

Definition admin_shadow_sudoers : pyval := VList perms_shadow_sudoers.

(** ** The command line around the evaluator *)

Module Cli.

(** The table of [rich] that [display_results] fills: its header
    settings, its columns (header and style) and its rows. *)
Record table : Type := {
  show_header : bool;
  header_style : string;
  columns : list (string * string);
  rows : list (list string)
}.

Definition add_column (t : table) (header style : string) : table :=
  {| show_header := show_header t;
     header_style := header_style t;
     columns := columns t ++ [(header, style)];
     rows := rows t |}.

Definition add_row (t : table) (cells : list string) : table :=
  {| show_header := show_header t;
     header_style := header_style t;
     columns := columns t;
     rows := rows t ++ [cells] |}.

(** What the process does to the outside, in the order it does it: a
    record handed to [logging], a change of the level of the root logger,
    a file opened for writing and closed with some content, a line of
    markup or a table printed on the console. *)
Inductive event : Type :=
| Logged : log_record -> event
| SetLevel : level -> event
| Wrote : string -> string -> event
| Printed : string -> event
| PrintedTable : table -> event.

(** How a run of the command line can stop early: [sys.exit(code)], or
    an exception nothing catches. *)
Inductive stop : Type :=
| SystemExit : Z -> stop
| Uncaught : exn -> stop.

Inductive ending (A : Type) : Type :=
| Normal : A -> ending A
| Stopped : stop -> ending A.
Arguments Stopped {A} _.

Definition P (A : Type) : Type := (ending A * list event)%type.

Definition pure (A : Type) (a : A) : P A := (Normal a, []).

Definition and_then (A B : Type) (m : P A) (f : A -> P B) : P B :=
  match m with
  | (Normal a, t) => let (r, t') := f a in (r, t ++ t')
  | (Stopped s, t) => (Stopped s, t)
  end.

Definition perform (e : event) : P unit := (Normal tt, [e]).

Definition sys_exit (A : Type) (code : Z) : P A :=
  (Stopped (SystemExit code), []).
Arguments sys_exit {A} code.

(** A computation of the evaluator's kind run inside the command line:
    its records go to the log, an exception it raises is caught by
    nobody. *)
Definition lift (A : Type) (m : M A) : P A :=
  (match fst m with
   | Return a => Normal a
   | Raise e => Stopped (Uncaught e)
   end,
   map Logged (snd m)).

Arguments pure : simpl never.
Arguments and_then : simpl never.
Arguments perform : simpl never.
Arguments sys_exit : simpl never.

(** What the files and the JSON reader do, seen from the program.
    [open_read path] is the text of the file, or the exception of
    [open]: [FileNotFoundError], or another one with its message.
    [json_load text] is the value [json.load] builds, or its
    [JSONDecodeError], or another exception with its message.
    [open_write path] is [None] when the file opens for writing, or the
    message of the exception.  [write_text text] is [None] when
    [f.write(text)] succeeds, or the message of the exception (a text
    the encoding of the file cannot hold, a full disk).  [cell_error text]
    is the exception [console.print] raises for a table with this text in
    a cell ([MarkupError] for a text [rich] cannot read as markup), if
    any. *)
Inductive open_error : Type :=
| NoSuchFile : open_error
| OpenFails : string -> open_error.

Inductive load_result : Type :=
| Parsed : pyval -> load_result
| Malformed : load_result
| LoadFails : string -> load_result.

Record world : Type := {
  open_read : string -> open_error + string;
  json_load : string -> load_result;
  open_write : string -> option string;
  write_text : string -> option string;
  cell_error : string -> option exn
}.

(** The namespace [setup_argparse] returns. *)
Record args : Type := {
  user_permissions_file : string;
  effective_admin_permissions_file : string;
  output_file : option string;
  log_level : level
}.

(** The numbers of the levels, and the records a trace leaves on the
    log stream: a record is shown when its level is not below the level
    of the root logger, [INFO] after [basicConfig(level=logging.INFO)]
    until [setLevel] changes it. *)
Definition level_num (l : level) : Z :=
  match l with
  | DEBUG => 10
  | INFO => 20
  | WARNING => 30
  | ERROR => 40
  | CRITICAL => 50
  end.

Fixpoint shown (current : level) (trace : list event) : list log_record :=
  match trace with
  | [] => []
  | SetLevel l :: trace' => shown l trace'
  | Logged r :: trace' =>
      if Z.leb (level_num current) (level_num (fst r))
      then r :: shown current trace'
      else shown current trace'
  | _ :: trace' => shown current trace'
  end.

Definition log_stream (trace : list event) : list log_record :=
  shown INFO trace.

(** The part of a trace a user gets as output: files and console. *)
Definition is_output (e : event) : bool :=
  match e with
  | Wrote _ _ | Printed _ | PrintedTable _ => true
  | Logged _ | SetLevel _ => false
  end.

Definition outputs (trace : list event) : list event :=
  filter is_output trace.

End Cli.

Import Cli.

Declare Scope cli_scope.
Delimit Scope cli_scope with cli.
Notation "x <- m ;; k" := (and_then m (fun x => k))
  (at level 61, m at next level, right associativity) : cli_scope.
Notation "m ;; k" := (and_then m (fun _ => k))
  (at level 61, right associativity) : cli_scope.
Local Open Scope cli_scope.

(** The line feed [f.write] puts after each user. *)
Definition newline : ascii := "010"%char.
Definition nl : string := String newline EmptyString.

Definition load_permissions_data (w : world) (file_path : string)
  : P pyval :=
  match open_read w file_path with
  | inr text =>
      match json_load w text with
      | Parsed data => pure data
      | Malformed =>
          lift (logging_error ("Invalid JSON format in file: " ++ file_path)) ;;
          pure VNone
      | LoadFails e =>
          lift (logging_error
                  ("Error loading data from " ++ file_path ++ ": " ++ e)) ;;
          pure VNone
      end
  | inl NoSuchFile =>
      lift (logging_error ("File not found: " ++ file_path)) ;;
      pure VNone
  | inl (OpenFails e) =>
      lift (logging_error
              ("Error loading data from " ++ file_path ++ ": " ++ e)) ;;
      pure VNone
  end.

(** The loop of [save_results]: each [f.write] adds the user and a line
    feed to what the file holds; a write that raises ends the loop.  The
    result is what the file holds when it is closed, and the message of
    the exception if there was one. *)
Fixpoint write_users (w : world) (results : list string) (content : string)
  : string * option string :=
  match results with
  | [] => (content, None)
  | user :: results' =>
      match write_text w (user ++ nl) with
      | Some e => (content, Some e)
      | None => write_users w results' (content ++ user ++ nl)
      end
  end.

Definition save_results (w : world) (results : list string)
    (output_file : string) : P unit :=
  match open_write w output_file with
  | None =>
      let (content, failure) := write_users w results "" in
      perform (Wrote output_file content) ;;
      match failure with
      | None => lift (logging_info ("Results saved to: " ++ output_file))
      | Some e =>
          lift (logging_error
                  ("Error saving results to " ++ output_file ++ ": " ++ e))
      end
  | Some e =>
      lift (logging_error
              ("Error saving results to " ++ output_file ++ ": " ++ e))
  end.

(** The first exception a list of texts meets, if any. *)
Fixpoint first_error (f : string -> option exn) (texts : list string)
  : option exn :=
  match texts with
  | [] => None
  | text :: texts' =>
      match f text with
      | Some e => Some e
      | None => first_error f texts'
      end
  end.

(** [console.print(table)]: the table is rendered, cell by cell, before
    anything is put out; an exception of the rendering is caught by
    nobody. *)
Definition console_print_table (w : world) (t : table) : P unit :=
  match first_error (cell_error w) (List.concat (rows t)) with
  | Some e => (Stopped (Uncaught e), [])
  | None => perform (PrintedTable t)
  end.

Definition display_results (w : world) (results : list string) : P unit :=
  let table :=
    {| show_header := true; header_style := "bold magenta";
       columns := []; rows := [] |} in
  let table := add_column table "Shadow Admin User" "cyan" in
  match results with
  | [] => perform (Printed "[bold yellow]No shadow admins found.[/]")
  | _ :: _ =>
      let table :=
        fold_left (fun table user => add_row table [user]) results table in
      console_print_table w table
  end.

(** [v.get(key)]: the value under the key or [None] for a dict; no other
    value of the model has the method. *)
Definition py_get (v : pyval) (key : string) : M pyval :=
  match v with
  | VDict d =>
      ret (match dict_get d key with Some x => x | None => VNone end)
  | _ => raise AttributeError
  end.

Definition is_none (v : pyval) : bool :=
  match v with VNone => true | _ => false end.

(** [if args.output_file:] holds for a string that is not empty. *)
Definition truthy_path (o : option string) : option string :=
  match o with
  | Some (String c s) => Some (String c s)
  | _ => None
  end.

Definition main (w : world) (a : args) : P unit :=
  perform (SetLevel (log_level a)) ;;
  user_permissions_data <-
    load_permissions_data w (user_permissions_file a) ;;
  effective_admin_permissions_data <-
    load_permissions_data w (effective_admin_permissions_file a) ;;
  if is_none user_permissions_data
     || is_none effective_admin_permissions_data then
    lift (logging_error "Failed to load permissions data. Exiting.") ;;
    sys_exit 1
  else
    effective_admin_permissions <-
      lift (py_get effective_admin_permissions_data "permissions") ;;
    if negb (isinstance_list effective_admin_permissions) then
      lift (logging_error
              "Invalid format for effective admin permissions. Expected list of permissions in a 'permissions' key.  Exiting.") ;;
      sys_exit 1
    else
      shadow_admins <-
        lift (find_shadow_admins user_permissions_data
                effective_admin_permissions) ;;
      match truthy_path (output_file a) with
      | Some path => save_results w shadow_admins path
      | None => pure tt
      end ;;
      display_results w shadow_admins.

(** The users, each followed by a line feed. *)
Fixpoint lines_text (results : list string) : string :=
  match results with
  | [] => ""
  | user :: results' => user ++ nl ++ lines_text results'
  end.

(** A string without a line feed. *)
Fixpoint no_newline (s : string) : bool :=
  match s with
  | EmptyString => true
  | String c s' => negb (Ascii.eqb c newline) && no_newline s'
  end.

(** A small world for the examples: files that parse, one that holds
    [null], one that is no JSON; every path but the root directory opens
    for writing, a name with a lone surrogate can be neither written
    nor printed, and [rich] refuses a lone closing tag. *)
Definition items_markup : list (string * pyval) :=
  [ ("carol", VList [VStr "/etc/shadow"; VStr "/etc/sudoers"]);
    ("[/]", VList [VStr "/etc/sudoers"; VStr "/etc/shadow"]) ].

Definition lone_surrogate : string :=
  String "237"%char (String "160"%char (String "128"%char EmptyString)).

Definition items_surrogate : list (string * pyval) :=
  [ ("erin", VList [VStr "/etc/shadow"; VStr "/etc/sudoers"]);
    (("dave" ++ lone_surrogate)%string,
     VList [VStr "/etc/shadow"; VStr "/etc/sudoers"]);
    ("frank", VList [VStr "/etc/shadow"; VStr "/etc/sudoers"]) ].

Definition demo_world : world :=
  {| open_read := fun path =>
       if String.eqb path "users.json" then inr "users"
       else if String.eqb path "admin.json" then inr "admin"
       else if String.eqb path "null.json" then inr "null"
       else if String.eqb path "list.json" then inr "list"
       else if String.eqb path "broken.json" then inr "{"
       else if String.eqb path "markup.json" then inr "markup"
       else if String.eqb path "surrogate.json" then inr "surrogate"
       else inl NoSuchFile;
     json_load := fun text =>
       if String.eqb text "users" then Parsed users_alice_bob
       else if String.eqb text "admin"
       then Parsed (VDict [("permissions", admin_shadow_sudoers)])
       else if String.eqb text "null" then Parsed VNone
       else if String.eqb text "list" then Parsed admin_shadow_sudoers
       else if String.eqb text "markup" then Parsed (VDict items_markup)
       else if String.eqb text "surrogate"
       then Parsed (VDict items_surrogate)
       else Malformed;
     open_write := fun path =>
       if String.eqb path "/" then Some "[Errno 21] Is a directory: '/'"
       else None;
     write_text := fun text =>
       if String.eqb text ("dave" ++ lone_surrogate ++ nl)
       then Some "'utf-8' codec can't encode character '\ud800'"
       else None;
     cell_error := fun text =>
       if String.eqb text "[/]" then Some MarkupError
       else if String.eqb text ("dave" ++ lone_surrogate)
       then Some (OtherError "UnicodeEncodeError")
       else None |}.

Definition demo_args (users admin : string) (out : option string) : args :=
  {| user_permissions_file := users;
     effective_admin_permissions_file := admin;
     output_file := out;
     log_level := INFO |}.

(** The file at [path] opens and holds the JSON text of [data]. *)
Definition holds (w : world) (path : string) (data : pyval) : Prop :=
  exists text, open_read w path = inr text /\ json_load w text = Parsed data.

(** The trace of the optional saving step of [main]. *)
Definition saving (w : world) (a : args) (results : list string)
  : list event :=
  match truthy_path (output_file a) with
  | Some path => snd (save_results w results path)
  | None => []
  end.

(** The messages a log holds at one level, in order. *)
Definition level_eqb (l l' : level) : bool :=
  Z.eqb (level_num l) (level_num l').

Definition messages_at (lvl : level) (records : list log_record)
  : list string :=
  map snd (filter (fun r => level_eqb (fst r) lvl) records).

(** A file written by a trace, and what a trace prints. *)
Definition is_write (e : event) : bool :=
  match e with Wrote _ _ => true | _ => false end.

Definition is_print (e : event) : bool :=
  match e with Printed _ | PrintedTable _ => true | _ => false end.

(** The levels the program logs at. *)
Definition plain_record (r : log_record) : bool :=
  match fst r with
  | INFO | WARNING | ERROR => true
  | DEBUG | CRITICAL => false
  end.

Local Close Scope cli_scope.

(** ** Notions the statements are written with *)

(** [xs] is [ys] with some elements left out, the others in place. *)
Inductive subseq (A : Type) : list A -> list A -> Prop :=
| subseq_nil : subseq [] []
| subseq_skip : forall xs y ys, subseq xs ys -> subseq xs (y :: ys)
| subseq_keep : forall x xs ys, subseq xs ys -> subseq (x :: xs) (x :: ys).




(** An argument in which a dict, if it is one, has the dict invariant. *)
Definition wf_input (v : pyval) : Prop :=
  match v with
  | VDict d => dict_wf d
  | _ => True
  end.

(** The test one item passes to be kept, and the records it leaves in
    the log, read off the loop body. *)
Definition qualifies (adm : list pyval) (kv : string * pyval) : bool :=
  match snd kv with
  | VList perms => list_issubset adm perms
  | _ => false
  end.

Definition item_log (adm : list pyval) (kv : string * pyval)
  : list log_record :=
  match snd kv with
  | VList perms =>
      if list_issubset adm perms
      then [(INFO,
             ("User " ++ fst kv ++ " identified as a shadow admin.")%string)]
      else []
  | _ =>
      [(WARNING,
        ("User " ++ fst kv ++ " has invalid permissions format. Skipping.")%string)]
  end.

(** The test [==] makes on one item of the left dict against the right
    dict. *)
Definition item_matches (ys : list (string * pyval)) (kv : string * pyval)
  : bool :=
  match dict_get ys (fst kv) with
  | Some w => py_eq (snd kv) w
  | None => false
  end.

(** Equations between booleans and integers, after the case analysis on
    the booleans. *)
Ltac numeric_eq :=
  repeat match goal with b : bool |- _ => destruct b end;
  simpl in *; first [congruence | lia].

(** ** Facts about dicts *)

Section DictFacts.
Variable A : Type.
Implicit Types (d : list (string * A)) (k : string) (v : A).

Lemma dict_get_In d k v : dict_get d k = Some v -> In (k, v) d.
Proof.
  induction d as [|[k' v'] d IH]; simpl; [discriminate|].
  destruct (String.eqb_spec k' k) as [->|Hne].
  - intros [= ->]. now left.
  - intros H. right. now apply IH.
Qed.

Lemma dict_get_None d k : ~ In k (dict_keys d) -> dict_get d k = None.
Proof.
  induction d as [|[k' v'] d IH]; simpl; [reflexivity|].
  intros Hnot. destruct (String.eqb_spec k' k) as [->|Hne].
  - exfalso. apply Hnot. now left.
  - apply IH. intros Hin. apply Hnot. now right.
Qed.

Lemma In_dict_get d k v : dict_wf d -> In (k, v) d -> dict_get d k = Some v.
Proof.
  unfold dict_wf. induction d as [|[k' v'] d IH]; simpl; [intros _ []|].
  intros Hwf [Heq|Hin].
  - injection Heq as -> ->. now rewrite String.eqb_refl.
  - apply NoDup_cons_iff in Hwf as [Hnot Hwf].
    destruct (String.eqb_spec k' k) as [->|Hne].
    + exfalso. apply Hnot. change k with (fst (k, v)). now apply in_map.
    + now apply IH.
Qed.

Lemma dict_set_keys d k v :
  dict_keys (dict_set d k v) =
  if in_dec string_dec k (dict_keys d) then dict_keys d
  else dict_keys d ++ [k].
Proof.
  induction d as [|[k' v'] d IH]; simpl; [reflexivity|].
  destruct (String.eqb_spec k' k) as [->|Hne]; simpl.
  - destruct (string_dec k k); [|congruence].
    destruct (in_dec string_dec k (dict_keys d)); reflexivity.
  - rewrite IH. destruct (string_dec k' k); [congruence|].
    destruct (in_dec string_dec k (dict_keys d)); reflexivity.
Qed.

Lemma dict_set_wf d k v : dict_wf d -> dict_wf (dict_set d k v).
Proof.
  unfold dict_wf. intros Hwf. rewrite dict_set_keys.
  destruct (in_dec string_dec k (dict_keys d)) as [Hin|Hnot]; [assumption|].
  apply NoDup_app; [assumption | repeat constructor; intros [] |].
  intros x Hx [<-|[]]. now apply Hnot.
Qed.
End DictFacts.

(** The dict of the scenarios is the one two insertions build. *)
Lemma items_alice_bob_built :
  items_alice_bob =
  dict_set
    (dict_set [] "alice"
       (VList [VStr "/etc/shadow"; VStr "/etc/sudoers";
               VStr "/var/log/auth.log"]))
    "bob" (VList [VStr "/home/bob/file1"]).
Proof. reflexivity. Qed.

Lemma items_alice_bob_wf : dict_wf items_alice_bob.
Proof.
  rewrite items_alice_bob_built. do 2 apply dict_set_wf. constructor.
Qed.

(** ** Facts about [==] and [in] *)

Lemma py_eq_list_cons x xs y ys :
  py_eq (VList (x :: xs)) (VList (y :: ys)) =
  py_eq x y && py_eq (VList xs) (VList ys).
Proof. reflexivity. Qed.

Lemma py_eq_dict xs ys :
  py_eq (VDict xs) (VDict ys) =
  Nat.eqb (List.length xs) (List.length ys) && forallb (item_matches ys) xs.
Proof.
  simpl. f_equal. induction xs as [|[k v] xs IH]; simpl; [reflexivity|].
  now rewrite IH.
Qed.

Lemma py_eq_str s t : py_eq (VStr s) (VStr t) = true <-> s = t.
Proof. simpl. apply String.eqb_eq. Qed.

Lemma py_eq_str_l s v : py_eq v (VStr s) = true -> v = VStr s.
Proof.
  destruct v; simpl; try discriminate.
  intros H. apply String.eqb_eq in H. now subst.
Qed.

Lemma wf_value_list l : wf_value (VList l) <-> Forall wf_value l.
Proof.
  induction l as [|x l IH]; [now split|].
  change (wf_value (VList (x :: l))) with (wf_value x /\ wf_value (VList l)).
  rewrite Forall_cons_iff. now rewrite IH.
Qed.

Lemma wf_value_dict d :
  wf_value (VDict d) <-> dict_wf d /\ Forall (fun kv => wf_value (snd kv)) d.
Proof.
  simpl. apply and_iff_compat_l.
  induction d as [|kv d IH]; [now split|].
  rewrite Forall_cons_iff. now rewrite IH.
Qed.

Lemma py_eq_refl v : wf_value v -> py_eq v v = true.
Proof.
  induction v as [| x | x | x | xs IH | xs IH] using pyval_ind; intros Hwf.
  - reflexivity.
  - apply Bool.eqb_reflx.
  - apply Z.eqb_refl.
  - apply String.eqb_refl.
  - apply wf_value_list in Hwf.
    induction IH as [|x xs Hx _ IHxs]; [reflexivity|].
    apply Forall_cons_iff in Hwf as [Hwx Hwxs].
    rewrite py_eq_list_cons, Hx, IHxs by assumption. reflexivity.
  - apply wf_value_dict in Hwf as [Hkeys Hvals].
    rewrite py_eq_dict, Nat.eqb_refl. simpl. apply forallb_forall.
    rewrite Forall_forall in IH, Hvals.
    intros [k v] Hin. unfold item_matches. simpl.
    rewrite (@In_dict_get _ xs k v Hkeys Hin).
    apply (IH _ Hin), (Hvals _ Hin).
Qed.

Lemma py_eq_trans a : forall b c,
  py_eq a b = true -> py_eq b c = true -> py_eq a c = true.
Proof.
  induction a as [| x | x | x | xs IH | xs IH] using pyval_ind;
    intros b c Hab Hbc.
  - destruct b; try discriminate. exact Hbc.
  - destruct b as [| y | y | | |]; try discriminate;
      destruct c as [| z | z | | |]; try discriminate; simpl in *;
      rewrite ?Z.eqb_eq, ?Bool.eqb_true_iff in *; numeric_eq.
  - destruct b as [| y | y | | |]; try discriminate;
      destruct c as [| z | z | | |]; try discriminate; simpl in *;
      rewrite ?Z.eqb_eq, ?Bool.eqb_true_iff in *; numeric_eq.
  - destruct b; try discriminate. destruct c; try discriminate.
    simpl in *. rewrite String.eqb_eq in *. congruence.
  - destruct b as [| | | | ys |]; try discriminate.
    destruct c as [| | | | zs |]; try discriminate.
    revert ys zs Hab Hbc.
    induction IH as [|x xs Hx _ IHxs]; intros [|y ys] [|z zs];
      try discriminate; try reflexivity.
    rewrite !py_eq_list_cons, !andb_true_iff.
    intros [Hxy Hxs] [Hyz Hys]. split; [eauto | eauto].
  - destruct b as [| | | | | ys]; try discriminate.
    destruct c as [| | | | | zs]; try discriminate.
    rewrite !py_eq_dict, !andb_true_iff, !Nat.eqb_eq, !forallb_forall in *.
    destruct Hab as [Hlen1 Hxy], Hbc as [Hlen2 Hyz].
    split; [congruence|].
    rewrite Forall_forall in IH.
    intros [k v] Hin. specialize (Hxy _ Hin). specialize (IH _ Hin).
    unfold item_matches in *. simpl in *.
    destruct (dict_get ys k) as [w|] eqn:Hw; [|discriminate].
    specialize (Hyz _ (dict_get_In _ _ Hw)). simpl in Hyz.
    destruct (dict_get zs k) as [u|]; [|discriminate]. eauto.
Qed.

Lemma list_contains_iff l x :
  list_contains l x = true <-> exists e, In e l /\ py_eq e x = true.
Proof. unfold list_contains. apply existsb_exists. Qed.

Lemma list_issubset_iff xs l :
  list_issubset xs l = true <-> forall x, In x xs -> list_contains l x = true.
Proof. unfold list_issubset. apply forallb_forall. Qed.

(** Among strings [in] is plain membership. *)
Lemma list_contains_str l s :
  list_contains l (VStr s) = true <-> In (VStr s) l.
Proof.
  rewrite list_contains_iff. split.
  - intros (e & Hin & Heq). now rewrite <- (py_eq_str_l _ _ Heq).
  - intros Hin. exists (VStr s). split; [assumption|]. now apply py_eq_str.
Qed.



(** A larger profile is harder to cover. *)
Lemma list_issubset_trans xs ys l :
  list_issubset xs ys = true -> list_issubset ys l = true ->
  list_issubset xs l = true.
Proof.
  rewrite !list_issubset_iff. intros Hxy Hyl x Hin.
  apply Hxy, list_contains_iff in Hin as (y & Hy & Hyx).
  apply Hyl, list_contains_iff in Hy as (e & He & Hey).
  apply list_contains_iff. exists e. split; [assumption|].
  eapply py_eq_trans; eassumption.
Qed.

(** ** The evaluator on a dict and a list *)

Lemma bind_ret_l (A B : Type) (a : A) (f : A -> M B) : bind (ret a) f = f a.
Proof. unfold bind, ret. now destruct (f a). Qed.

(** On a list the generator of the subset test never raises and gives
    the boolean of [list_issubset]. *)
Lemma py_all_contains perms xs :
  py_all (fun perm => py_contains (VList perms) perm) xs =
  ret (list_issubset xs perms).
Proof.
  induction xs as [|x xs IH]; simpl; [reflexivity|].
  rewrite bind_ret_l. now destruct (list_contains perms x).
Qed.

(** The loop keeps, in order, the keys of the items that qualify. *)
Lemma for_items_list adm items : forall shadow_admins,
  for_items (VList adm) items shadow_admins =
  (Return (shadow_admins ++ dict_keys (filter (qualifies adm) items)),
   flat_map (item_log adm) items).
Proof.
  induction items as [|[user permissions] items IH]; intros acc; simpl.
  - now rewrite app_nil_r.
  - unfold qualifies, item_log; simpl.
    destruct permissions as [| | | | perms |];
      cbn [isinstance_list negb py_iter];
      try (unfold logging_warning; rewrite IH; reflexivity).
    rewrite bind_ret_l, py_all_contains, bind_ret_l.
    destruct (list_issubset adm perms).
    + unfold logging_info. rewrite IH, <- app_assoc. reflexivity.
    + apply IH.
Qed.

Lemma find_shadow_admins_dict_list d adm :
  find_shadow_admins (VDict d) (VList adm) =
  (Return (dict_keys (filter (qualifies adm) d)),
   flat_map (item_log adm) d).
Proof.
  unfold find_shadow_admins. simpl. rewrite bind_ret_l.
  apply for_items_list.
Qed.

Lemma find_shadow_admins_not_dict u a :
  isinstance_dict u = false ->
  find_shadow_admins u a =
  (Return [],
   [(ERROR, "Invalid user permissions data. Expected a dictionary.")]).
Proof. unfold find_shadow_admins. now intros ->. Qed.

Lemma find_shadow_admins_not_list d a :
  isinstance_list a = false ->
  find_shadow_admins (VDict d) a =
  (Return [],
   [(ERROR, "Invalid effective admin permissions data. Expected a list.")]).
Proof. unfold find_shadow_admins. simpl. now intros ->. Qed.

Lemma subseq_filter_keys (f : string * pyval -> bool) d :
  subseq (dict_keys (filter f d)) (dict_keys d).
Proof.
  induction d as [|kv d IH]; simpl; [constructor|].
  destruct (f kv); simpl; now constructor.
Qed.

Lemma subseq_In (A : Type) (xs ys : list A) x :
  subseq xs ys -> In x xs -> In x ys.
Proof.
  induction 1 as [|xs y ys _ IH|y xs ys _ IH]; simpl; [easy|auto|].
  intros [->|Hin]; auto.
Qed.

Lemma subseq_NoDup (A : Type) (xs ys : list A) :
  subseq xs ys -> NoDup ys -> NoDup xs.
Proof.
  induction 1 as [|xs y ys _ IH|y xs ys Hsub IH]; intros Hnd.
  - constructor.
  - apply NoDup_cons_iff in Hnd as [_ Hnd]. auto.
  - apply NoDup_cons_iff in Hnd as [Hnot Hnd]. constructor; [|auto].
    intros Hin. apply Hnot. eapply subseq_In; eassumption.
Qed.

(** A key is kept exactly when one of its items qualifies. *)
Lemma In_qualifying_keys adm d user :
  In user (dict_keys (filter (qualifies adm) d)) <->
  exists perms, In (user, VList perms) d /\ list_issubset adm perms = true.
Proof.
  unfold dict_keys. rewrite in_map_iff. split.
  - intros ([k v] & <- & Hin). apply filter_In in Hin as [Hin Hq].
    unfold qualifies in Hq. simpl in *.
    destruct v; try discriminate. eauto.
  - intros (perms & Hin & Hsub). exists (user, VList perms).
    split; [reflexivity|]. apply filter_In. now split.
Qed.

Lemma qualifies_nil kv : qualifies [] kv = isinstance_list (snd kv).
Proof. unfold qualifies. now destruct (snd kv). Qed.


Lemma dict_del_filter (f : string * pyval -> bool) d user v :
  dict_get d user = Some v -> f (user, v) = false ->
  filter f (dict_del d user) = filter f d.
Proof.
  induction d as [|[k w] d IH]; simpl; [discriminate|].
  destruct (String.eqb_spec k user) as [->|Hne].
  - intros [= ->] ->. reflexivity.
  - intros Hget Hf. simpl. now rewrite IH.
Qed.

(** ** The recursion limit *)

Lemma py_eq_list_length xs : forall ys,
  List.length xs <> List.length ys -> py_eq (VList xs) (VList ys) = false.
Proof.
  induction xs as [|x xs IH]; intros [|y ys] Hlen; simpl in Hlen;
    try reflexivity; try congruence.
  rewrite py_eq_list_cons, IH by congruence. apply andb_false_r.
Qed.

Lemma all_eq_sound cmp xs : forall ys r,
  (forall x y b, In x xs -> cmp x y = Some b -> b = py_eq x y) ->
  all_eq cmp xs ys = Some r -> r = py_eq (VList xs) (VList ys).
Proof.
  induction xs as [|x xs IH]; intros [|y ys] r Hcmp; cbn [all_eq];
    try (intros [= <-]; reflexivity).
  destruct (cmp x y) as [[|]|] eqn:Hxy; try discriminate.
  - intros Hrest. rewrite py_eq_list_cons.
    rewrite <- (Hcmp x y true (or_introl eq_refl) Hxy).
    apply IH; [|exact Hrest]. intros x' y' b Hin. apply Hcmp. now right.
  - intros [= <-]. rewrite py_eq_list_cons.
    now rewrite <- (Hcmp x y false (or_introl eq_refl) Hxy).
Qed.

Lemma items_eq_sound cmp ys xs : forall r,
  (forall kv w b, In kv xs -> cmp (snd kv) w = Some b ->
                  b = py_eq (snd kv) w) ->
  items_eq cmp ys xs = Some r -> r = forallb (item_matches ys) xs.
Proof.
  induction xs as [|[k v] xs IH]; intros r Hcmp; cbn [items_eq forallb];
    [now intros [= <-]|].
  unfold item_matches at 1. cbn [fst snd].
  destruct (dict_get ys k) as [w|]; [|now intros [= <-]].
  destruct (cmp v w) as [[|]|] eqn:Hvw; try discriminate.
  - intros Hrest.
    pose proof (Hcmp (k, v) w true (or_introl eq_refl) Hvw) as E.
    cbn [snd] in E. rewrite <- E.
    apply IH; [|exact Hrest]. intros kv w' b Hin. apply Hcmp. now right.
  - intros [= <-].
    pose proof (Hcmp (k, v) w false (or_introl eq_refl) Hvw) as E.
    cbn [snd] in E. now rewrite <- E.
Qed.

(** Whenever the comparison under a budget returns, it returns what
    [py_eq] gives. *)
Lemma py_eq_bounded_sound budget : forall a b r,
  py_eq_bounded budget a b = Some r -> r = py_eq a b.
Proof.
  induction budget as [|budget IH]; intros a b r; [discriminate|].
  destruct a as [| | | | xs | xs]; destruct b as [| | | | ys | ys];
    try (intros [= <-]; reflexivity); cbn [py_eq_bounded].
  - destruct (Nat.eqb_spec (List.length xs) (List.length ys)) as [Hlen|Hlen].
    + apply all_eq_sound. intros x y b _. apply IH.
    + intros [= <-]. symmetry. now apply py_eq_list_length.
  - rewrite py_eq_dict.
    destruct (Nat.eqb (List.length xs) (List.length ys));
      [|now intros [= <-]].
    apply items_eq_sound. intros kv w b _. apply IH.
Qed.










Lemma list_contains_bounded_sound budget l x : forall r,
  list_contains_bounded budget l x = Some r -> r = list_contains l x.
Proof.
  induction l as [|e l IH]; intros r; simpl; [now intros [= <-]|].
  destruct (py_eq_bounded budget e x) as [[|]|] eqn:He; try discriminate.
  - intros [= <-]. now rewrite <- (py_eq_bounded_sound _ _ _ He).
  - intros H. rewrite <- (py_eq_bounded_sound _ _ _ He). now apply IH.
Qed.


Lemma bind_emit_l (B : Type) lvl msg (f : unit -> M B) :
  bind (emit lvl msg) f = (fst (f tt), (lvl, msg) :: snd (f tt)).
Proof. unfold bind, emit. now destruct (f tt). Qed.






(** ** The properties of the specification *)

(** C1. On a dict and a list, [find_shadow_admins] returns a list in which
    a user name occurs if and only if it is a key of the dict, the value
    under it is a list, and every element of the admin list is in that
    list (with Python's [in]): the admin permissions are a subset of the
    user's. *)
Theorem find_shadow_admins_iff_superset d adm :
  dict_wf d ->
  exists res,
    result (find_shadow_admins (VDict d) (VList adm)) = Return res /\
    forall user,
      In user res <->
      exists perms,
        dict_get d user = Some (VList perms) /\
        forall p, In p adm -> list_contains perms p = true.
Proof.
  intros Hwf. rewrite find_shadow_admins_dict_list.
  eexists. split; [reflexivity|]. intros user.
  rewrite In_qualifying_keys.
  split; intros (perms & Hd & Hsub); exists perms.
  - split; [now apply In_dict_get | now apply list_issubset_iff].
  - split; [now apply dict_get_In | now apply list_issubset_iff].
Qed.

Lemma find_shadow_admins_iff_superset_witness :
  dict_wf items_alice_bob /\
  exists res,
    result (find_shadow_admins users_alice_bob admin_shadow_sudoers)
    = Return res /\
    forall user,
      In user res <->
      exists perms,
        dict_get items_alice_bob user = Some (VList perms) /\
        forall p, In p perms_shadow_sudoers -> list_contains perms p = true.
Proof.
  split; [exact items_alice_bob_wf|].
  exact (find_shadow_admins_iff_superset perms_shadow_sudoers
           items_alice_bob_wf).
Defined.

(** C2. With the empty admin list, [find_shadow_admins] returns the keys
    whose value is a list, all of them: every user with a list of
    permissions is in the result. *)
Theorem find_shadow_admins_empty_profile d :
  result (find_shadow_admins (VDict d) (VList [])) =
  Return (dict_keys (filter (fun kv => isinstance_list (snd kv)) d)) /\
  forall res user perms,
    result (find_shadow_admins (VDict d) (VList [])) = Return res ->
    In (user, VList perms) d -> In user res.
Proof.
  rewrite find_shadow_admins_dict_list. simpl. split.
  - now rewrite (filter_ext _ _ qualifies_nil).
  - intros res user perms [= <-] Hin.
    apply In_qualifying_keys. exists perms. now split.
Qed.

(** C3. On a dict and a list, the returned user names are a subsequence
    of the keys of the dict in their insertion order: the kept keys stand
    in the order the dict has them. *)
Theorem find_shadow_admins_keeps_order d adm :
  exists res,
    result (find_shadow_admins (VDict d) (VList adm)) = Return res /\
    subseq res (dict_keys d).
Proof.
  rewrite find_shadow_admins_dict_list.
  eexists. split; [reflexivity|]. apply subseq_filter_keys.
Qed.

(** C4. When the first argument is no dict or the second is no list,
    [find_shadow_admins] raises nothing: it returns the empty list and
    its log is one record of level ERROR. *)
Theorem find_shadow_admins_bad_toplevel u a :
  isinstance_dict u = false \/ isinstance_list a = false ->
  exists msg, find_shadow_admins u a = (Return [], [(ERROR, msg)]).
Proof.
  intros H. destruct (isinstance_dict u) eqn:Hu.
  - destruct H as [H|Ha]; [discriminate|].
    destruct u; try discriminate.
    eexists. now apply find_shadow_admins_not_list.
  - eexists. now apply find_shadow_admins_not_dict.
Qed.

Lemma find_shadow_admins_bad_toplevel_witness :
  (isinstance_dict users_alice_bob = false \/
   isinstance_list (VInt 7) = false) /\
  exists msg,
    find_shadow_admins users_alice_bob (VInt 7)
    = (Return [], [(ERROR, msg)]).
Proof.
  split; [right; reflexivity|].
  apply find_shadow_admins_bad_toplevel. right. reflexivity.
Defined.

(** C5. A user whose value is not a list (so, in particular, not a
    sequence) is left out of the result, and the other users are
    evaluated as if the entry were not there: the result is the one
    computed on the dict without that entry. *)
Theorem find_shadow_admins_skips_malformed d a user v :
  dict_wf d ->
  dict_get d user = Some v ->
  isinstance_list v = false ->
  exists res,
    result (find_shadow_admins (VDict d) a) = Return res /\
    ~ In user res /\
    result (find_shadow_admins (VDict (dict_del d user)) a) = Return res.
Proof.
  intros Hwf Hget Hv. destruct (isinstance_list a) eqn:Ha.
  - destruct a as [| | | | adm |]; try discriminate.
    rewrite !find_shadow_admins_dict_list. simpl.
    eexists. split; [reflexivity|]. split.
    + intros Hin. apply In_qualifying_keys in Hin as (perms & Hin & _).
      apply In_dict_get in Hin; [|exact Hwf]. rewrite Hget in Hin.
      injection Hin as ->. discriminate.
    + rewrite (@dict_del_filter (qualifies adm) d user v Hget);
        [reflexivity|].
      unfold qualifies. simpl. now destruct v.
  - rewrite !find_shadow_admins_not_list by assumption.
    exists []. simpl. auto.
Qed.

Lemma find_shadow_admins_skips_malformed_witness :
  dict_wf (("carol", VInt 42) :: items_alice_bob) /\
  dict_get (("carol", VInt 42) :: items_alice_bob) "carol"
  = Some (VInt 42) /\
  isinstance_list (VInt 42) = false /\
  exists res,
    result (find_shadow_admins
              (VDict (("carol", VInt 42) :: items_alice_bob))
              admin_shadow_sudoers) = Return res /\
    ~ In "carol" res /\
    result (find_shadow_admins
              (VDict (dict_del (("carol", VInt 42) :: items_alice_bob)
                        "carol"))
              admin_shadow_sudoers) = Return res.
Proof.
  assert (Hwf : dict_wf (("carol", VInt 42) :: items_alice_bob)).
  { constructor; [|exact items_alice_bob_wf].
    simpl. intros [H|[H|[]]]; discriminate. }
  split; [exact Hwf|]. split; [reflexivity|]. split; [reflexivity|].
  exact (@find_shadow_admins_skips_malformed _ admin_shadow_sudoers
           "carol" (VInt 42) Hwf eq_refl eq_refl).
Defined.






(** C8. The two scenarios: with alice holding the three paths and bob
    one file, the profile of shadow and sudoers returns alice alone, and
    the empty profile returns alice and then bob. *)
Theorem find_shadow_admins_scenarios :
  result (find_shadow_admins users_alice_bob admin_shadow_sudoers)
  = Return ["alice"] /\
  result (find_shadow_admins users_alice_bob (VList []))
  = Return ["alice"; "bob"].
Proof. split; reflexivity. Qed.

(** C9. No user name occurs twice in the returned list, the keys of a
    dict being distinct and each item visited once. *)
Theorem find_shadow_admins_NoDup u a :
  wf_input u ->
  exists res,
    result (find_shadow_admins u a) = Return res /\ NoDup res.
Proof.
  intros Hwf. destruct (isinstance_dict u) eqn:Hu.
  - destruct u as [| | | | | d]; try discriminate.
    destruct (isinstance_list a) eqn:Ha.
    + destruct a as [| | | | adm |]; try discriminate.
      rewrite find_shadow_admins_dict_list.
      eexists. split; [reflexivity|].
      eapply subseq_NoDup; [apply subseq_filter_keys | exact Hwf].
    + rewrite find_shadow_admins_not_list by assumption.
      exists []. split; [reflexivity | constructor].
  - rewrite find_shadow_admins_not_dict by assumption.
    exists []. split; [reflexivity | constructor].
Qed.

Lemma find_shadow_admins_NoDup_witness :
  wf_input users_alice_bob /\
  exists res,
    result (find_shadow_admins users_alice_bob (VList [])) = Return res /\
    NoDup res.
Proof.
  split; [exact items_alice_bob_wf|].
  exact (@find_shadow_admins_NoDup users_alice_bob (VList [])
           items_alice_bob_wf).
Defined.

(** C10. A larger admin profile never adds a shadow admin: if every
    element of [A] is in [B], each user returned for [B] is returned
    for [A]. *)
Theorem find_shadow_admins_antitone d A B :
  list_issubset A B = true ->
  exists resA resB,
    result (find_shadow_admins (VDict d) (VList A)) = Return resA /\
    result (find_shadow_admins (VDict d) (VList B)) = Return resB /\
    forall user, In user resB -> In user resA.
Proof.
  intros HAB. rewrite !find_shadow_admins_dict_list.
  do 2 eexists. split; [reflexivity|]. split; [reflexivity|].
  intros user Hin.
  apply In_qualifying_keys in Hin as (perms & Hin & HB).
  apply In_qualifying_keys. exists perms. split; [assumption|].
  eapply list_issubset_trans; eassumption.
Qed.

Lemma find_shadow_admins_antitone_witness :
  list_issubset [VStr "/etc/sudoers"] perms_shadow_sudoers = true /\
  exists resA resB,
    result (find_shadow_admins users_alice_bob (VList [VStr "/etc/sudoers"]))
    = Return resA /\
    result (find_shadow_admins users_alice_bob admin_shadow_sudoers)
    = Return resB /\
    forall user, In user resB -> In user resA.
Proof.
  split; [reflexivity|].
  exact (@find_shadow_admins_antitone items_alice_bob
           [VStr "/etc/sudoers"] perms_shadow_sudoers eq_refl).
Defined.

(** ** More on the evaluator *)

Lemma messages_at_app lvl l l' :
  messages_at lvl (l ++ l') = messages_at lvl l ++ messages_at lvl l'.
Proof. unfold messages_at. now rewrite filter_app, map_app. Qed.

Lemma list_contains_app l l' x :
  list_contains (l ++ l') x = list_contains l x || list_contains l' x.
Proof. unfold list_contains. apply existsb_app. Qed.

Lemma list_issubset_app xs ys l :
  list_issubset (xs ++ ys) l = list_issubset xs l && list_issubset ys l.
Proof. unfold list_issubset. apply forallb_app. Qed.

Lemma list_issubset_grow xs l extra :
  list_issubset xs l = true -> list_issubset xs (l ++ extra) = true.
Proof.
  rewrite !list_issubset_iff. intros H x Hin.
  rewrite list_contains_app, (H x Hin). reflexivity.
Qed.

(** With unique keys a user is kept exactly when the value under the
    name is a list that covers the profile. *)
Lemma In_result_iff d adm user :
  dict_wf d ->
  In user (dict_keys (filter (qualifies adm) d)) <->
  exists perms,
    dict_get d user = Some (VList perms) /\ list_issubset adm perms = true.
Proof.
  intros Hwf. rewrite In_qualifying_keys.
  split; intros (perms & Hd & Hsub); exists perms; split; try assumption.
  - now apply In_dict_get.
  - now apply dict_get_In.
Qed.

Lemma dict_get_set_eq (A : Type) (d : list (string * A)) key v w :
  dict_get d key = Some w -> dict_get (dict_set d key v) key = Some v.
Proof.
  induction d as [|[k x] d IH]; simpl; [discriminate|].
  destruct (String.eqb_spec k key) as [->|Hne]; simpl.
  - now rewrite String.eqb_refl.
  - intros H. apply String.eqb_neq in Hne. rewrite Hne. now apply IH.
Qed.

Lemma dict_get_set_ne (A : Type) (d : list (string * A)) key v k :
  k <> key -> dict_get (dict_set d key v) k = dict_get d k.
Proof.
  intros Hne. induction d as [|[k' x] d IH]; simpl.
  - destruct (String.eqb_spec key k); congruence.
  - destruct (String.eqb_spec k' key) as [->|Hne']; simpl.
    + destruct (String.eqb_spec key k); congruence.
    + now rewrite IH.
Qed.

Lemma qualifies_item adm user v :
  qualifies adm (user, v) =
  match v with VList perms => list_issubset adm perms | _ => false end.
Proof. reflexivity. Qed.

Lemma item_log_item adm user v :
  item_log adm (user, v) =
  match v with
  | VList perms =>
      if list_issubset adm perms
      then [(INFO,
             ("User " ++ user ++ " identified as a shadow admin.")%string)]
      else []
  | _ =>
      [(WARNING,
        ("User " ++ user ++ " has invalid permissions format. Skipping.")%string)]
  end.
Proof. reflexivity. Qed.

(** X1. On a dict and a list the log of [find_shadow_admins] has one
    INFO record for each returned user, in the order of the result, one
    WARNING record for each key whose value is not a list, in dict order,
    and no record of another level. *)
Theorem find_shadow_admins_log_accounting d adm :
  exists res,
    result (find_shadow_admins (VDict d) (VList adm)) = Return res /\
    messages_at INFO (log (find_shadow_admins (VDict d) (VList adm))) =
      map (fun user => "User " ++ user ++ " identified as a shadow admin.")%string
        res /\
    messages_at WARNING (log (find_shadow_admins (VDict d) (VList adm))) =
      map (fun user =>
             "User " ++ user ++ " has invalid permissions format. Skipping.")%string
        (dict_keys (filter (fun kv => negb (isinstance_list (snd kv))) d)) /\
    Forall (fun r => fst r = INFO \/ fst r = WARNING)
      (log (find_shadow_admins (VDict d) (VList adm))).
Proof.
  rewrite find_shadow_admins_dict_list. unfold result, log. cbn [fst snd].
  eexists. split; [reflexivity|]. unfold dict_keys.
  induction d as [|[user v] d (IHi & IHw & IHall)].
  - repeat split. constructor.
  - cbn [flat_map filter]. rewrite !messages_at_app, IHi, IHw.
    rewrite Forall_app, qualifies_item, item_log_item.
    cbn [fst snd].
    destruct v as [| | | | perms |]; cbn [isinstance_list negb map fst];
      try solve [repeat split; repeat constructor; auto].
    destruct (list_issubset adm perms);
      repeat split; repeat constructor; auto.
Qed.

(** X2. Two profiles put together select the users both select: with
    unique keys, a user is returned for [A ++ B] exactly when it is
    returned for [A] and for [B]. *)
Theorem find_shadow_admins_profiles_intersect d A B :
  dict_wf d ->
  exists resA resB resAB,
    result (find_shadow_admins (VDict d) (VList A)) = Return resA /\
    result (find_shadow_admins (VDict d) (VList B)) = Return resB /\
    result (find_shadow_admins (VDict d) (VList (A ++ B))) = Return resAB /\
    forall user, In user resAB <-> In user resA /\ In user resB.
Proof.
  intros Hwf. rewrite !find_shadow_admins_dict_list.
  do 3 eexists. do 3 (split; [reflexivity|]). intros user.
  rewrite !In_result_iff by assumption. split.
  - intros (perms & Hget & Hsub).
    rewrite list_issubset_app in Hsub. apply andb_true_iff in Hsub as [HA HB].
    split; exists perms; now split.
  - intros [(pa & Hga & HA) (pb & Hgb & HB)].
    rewrite Hga in Hgb. injection Hgb as <-.
    exists pa. split; [assumption|].
    now rewrite list_issubset_app, HA, HB.
Qed.

Lemma find_shadow_admins_profiles_intersect_witness :
  dict_wf items_alice_bob /\
  exists resA resB resAB,
    result (find_shadow_admins users_alice_bob (VList [VStr "/etc/shadow"]))
    = Return resA /\
    result (find_shadow_admins users_alice_bob (VList [VStr "/etc/sudoers"]))
    = Return resB /\
    result (find_shadow_admins users_alice_bob
              (VList ([VStr "/etc/shadow"] ++ [VStr "/etc/sudoers"])))
    = Return resAB /\
    forall user, In user resAB <-> In user resA /\ In user resB.
Proof.
  split; [exact items_alice_bob_wf|].
  exact (@find_shadow_admins_profiles_intersect items_alice_bob
           [VStr "/etc/shadow"] [VStr "/etc/sudoers"] items_alice_bob_wf).
Defined.

(** X3. Granting a user more permissions never takes a shadow admin
    away: after [d[user] = perms + extra] the user is still returned if
    it was, and every other user is returned exactly when it was. *)
Theorem find_shadow_admins_grant d adm user perms extra :
  dict_wf d ->
  dict_get d user = Some (VList perms) ->
  exists res res',
    result (find_shadow_admins (VDict d) (VList adm)) = Return res /\
    result (find_shadow_admins
              (VDict (dict_set d user (VList (perms ++ extra))))
              (VList adm)) = Return res' /\
    (In user res -> In user res') /\
    forall other, other <> user -> (In other res <-> In other res').
Proof.
  intros Hwf Hget. rewrite !find_shadow_admins_dict_list.
  do 2 eexists. do 2 (split; [reflexivity|]).
  assert (Hwf' : dict_wf (dict_set d user (VList (perms ++ extra))))
    by now apply dict_set_wf.
  split.
  - rewrite !In_result_iff by assumption.
    intros (p & Hp & Hsub). rewrite Hget in Hp. injection Hp as <-.
    exists (perms ++ extra). split.
    + eapply dict_get_set_eq, Hget.
    + now apply list_issubset_grow.
  - intros other Hne. rewrite !In_result_iff by assumption.
    now rewrite dict_get_set_ne.
Qed.

Lemma find_shadow_admins_grant_witness :
  dict_wf items_alice_bob /\
  dict_get items_alice_bob "bob" = Some (VList [VStr "/home/bob/file1"]) /\
  exists res res',
    result (find_shadow_admins (VDict items_alice_bob) admin_shadow_sudoers)
    = Return res /\
    result (find_shadow_admins
              (VDict (dict_set items_alice_bob "bob"
                        (VList ([VStr "/home/bob/file1"]
                                  ++ perms_shadow_sudoers))))
              admin_shadow_sudoers) = Return res' /\
    (In "bob" res -> In "bob" res') /\
    forall other, other <> "bob" -> (In other res <-> In other res').
Proof.
  split; [exact items_alice_bob_wf|]. split; [reflexivity|].
  exact (@find_shadow_admins_grant items_alice_bob perms_shadow_sudoers
           "bob" [VStr "/home/bob/file1"] perms_shadow_sudoers
           items_alice_bob_wf eq_refl).
Defined.

(** X4. On path strings the test is plain inclusion: when the value under
    a user is a list of strings and the profile is a list of strings, the
    user is returned exactly when every path of the profile is among the
    user's paths. *)
Theorem find_shadow_admins_string_paths d user (paths profile : list string) :
  dict_wf d ->
  dict_get d user = Some (VList (map VStr paths)) ->
  exists res,
    result (find_shadow_admins (VDict d) (VList (map VStr profile)))
    = Return res /\
    (In user res <-> incl profile paths).
Proof.
  intros Hwf Hget. rewrite find_shadow_admins_dict_list.
  eexists. split; [reflexivity|].
  rewrite In_result_iff by assumption.
  assert (Hstr : forall s l, In (VStr s) (map VStr l) <-> In s l).
  { intros s l. rewrite in_map_iff. split.
    - intros (t & [= ->] & Hin). exact Hin.
    - intros Hin. now exists s. }
  split.
  - intros (perms & Hp & Hsub) p Hin.
    rewrite Hget in Hp. injection Hp as <-.
    rewrite list_issubset_iff in Hsub.
    apply Hstr, list_contains_str, Hsub, Hstr, Hin.
  - intros Hincl. exists (map VStr paths). split; [assumption|].
    apply list_issubset_iff. intros x Hx.
    apply in_map_iff in Hx as (p & <- & Hp).
    apply list_contains_str, Hstr, Hincl, Hp.
Qed.

Lemma find_shadow_admins_string_paths_witness :
  dict_wf items_alice_bob /\
  dict_get items_alice_bob "alice"
  = Some (VList (map VStr ["/etc/shadow"; "/etc/sudoers";
                           "/var/log/auth.log"])) /\
  exists res,
    result (find_shadow_admins (VDict items_alice_bob)
              (VList (map VStr ["/etc/sudoers"; "/etc/shadow"])))
    = Return res /\
    (In "alice" res <->
     incl ["/etc/sudoers"; "/etc/shadow"]
       ["/etc/shadow"; "/etc/sudoers"; "/var/log/auth.log"]).
Proof.
  split; [exact items_alice_bob_wf|]. split; [reflexivity|].
  exact (@find_shadow_admins_string_paths items_alice_bob "alice"
           ["/etc/shadow"; "/etc/sudoers"; "/var/log/auth.log"]
           ["/etc/sudoers"; "/etc/shadow"] items_alice_bob_wf eq_refl).
Defined.

(** ** The evaluator under the recursion limit: what a run that returns
    returns *)

Lemma bind_return_inv (A B : Type) (m : M A) (f : A -> M B) b lg :
  bind m f = (Return b, lg) ->
  exists a l1 l2,
    m = (Return a, l1) /\ f a = (Return b, l2) /\ lg = l1 ++ l2.
Proof.
  unfold bind. destruct m as [[a|e] l1]; [|discriminate].
  destruct (f a) as [r l2] eqn:Hf. intros [= -> <-].
  exists a, l1, l2. auto.
Qed.

Lemma py_all_bounded_sound budget perms adm : forall r lg,
  py_all (fun perm => py_contains_bounded budget (VList perms) perm) adm
  = (Return r, lg) ->
  r = list_issubset adm perms /\ lg = [].
Proof.
  induction adm as [|x adm IH]; intros r lg; cbn [py_all].
  - intros [= <- <-]. split; reflexivity.
  - cbn [py_contains_bounded].
    destruct (list_contains_bounded budget perms x) as [b|] eqn:Hb;
      [|discriminate].
    rewrite bind_ret_l. apply list_contains_bounded_sound in Hb. subst b.
    change (list_issubset (x :: adm) perms)
      with (list_contains perms x && list_issubset adm perms).
    destruct (list_contains perms x).
    + apply IH.
    + intros [= <- <-]. split; reflexivity.
Qed.

Lemma for_items_bounded_sound budget adm items : forall acc res lg,
  for_items_bounded budget (VList adm) items acc = (Return res, lg) ->
  for_items (VList adm) items acc = (Return res, lg).
Proof.
  induction items as [|[user permissions] items IH]; intros acc res lg;
    [trivial|].
  cbn [for_items_bounded for_items].
  assert (Hwarn : forall lvl msg acc',
             bind (emit lvl msg)
               (fun _ => for_items_bounded budget (VList adm) items acc')
             = (Return res, lg) ->
             bind (emit lvl msg)
               (fun _ => for_items (VList adm) items acc')
             = (Return res, lg)).
  { intros lvl msg acc'. rewrite !bind_emit_l.
    destruct (for_items_bounded budget (VList adm) items acc')
      as [o l] eqn:Hb.
    cbn [fst snd]. intros [= -> <-].
    now rewrite (IH _ _ _ Hb). }
  destruct permissions as [| | | | perms |];
    cbn [isinstance_list negb py_iter];
    try (unfold logging_warning; apply Hwarn).
  rewrite !bind_ret_l. intros H.
  apply bind_return_inv in H as (b & l1 & l2 & Hall & Hrest & ->).
  apply py_all_bounded_sound in Hall as [-> ->].
  rewrite py_all_contains, bind_ret_l. cbn [app].
  destruct (list_issubset adm perms).
  - unfold logging_info in *. now apply Hwarn.
  - now apply IH.
Qed.

(** X20. The evaluator without a recursion limit describes every run
    that returns: when [find_shadow_admins] returns under some recursion
    budget, the list it returns and its log are those of the evaluator
    run without limit. *)
Theorem find_shadow_admins_bounded_sound budget u a res lg :
  find_shadow_admins_bounded budget u a = (Return res, lg) ->
  find_shadow_admins u a = (Return res, lg).
Proof.
  unfold find_shadow_admins_bounded, find_shadow_admins.
  destruct u as [| | | | | d]; try trivial.
  destruct a as [| | | | adm |]; try trivial.
  cbn [isinstance_dict isinstance_list negb py_items].
  rewrite !bind_ret_l. apply for_items_bounded_sound.
Qed.

Lemma find_shadow_admins_bounded_sound_witness :
  find_shadow_admins_bounded 2 users_alice_bob admin_shadow_sudoers
  = (Return ["alice"],
     [(INFO, "User alice identified as a shadow admin.")]) /\
  find_shadow_admins users_alice_bob admin_shadow_sudoers
  = (Return ["alice"],
     [(INFO, "User alice identified as a shadow admin.")]).
Proof.
  split; [reflexivity|].
  apply (@find_shadow_admins_bounded_sound 2). reflexivity.
Defined.

(** ** The command line: loading, saving, printing *)

Lemma and_then_normal (A B : Type) (a : A) t (f : A -> P B) :
  and_then (Normal a, t) f = (fst (f a), t ++ snd (f a)).
Proof. unfold and_then. now destruct (f a). Qed.

Lemma and_then_pure (A B : Type) (a : A) (f : A -> P B) :
  and_then (pure a) f = f a.
Proof. unfold pure. rewrite and_then_normal. now destruct (f a). Qed.

Lemma and_then_perform (B : Type) e (f : unit -> P B) :
  and_then (perform e) f = (fst (f tt), e :: snd (f tt)).
Proof. unfold perform. now rewrite and_then_normal. Qed.

Lemma and_then_log (B : Type) lvl msg (f : unit -> P B) :
  and_then (lift (emit lvl msg)) f =
  (fst (f tt), Logged (lvl, msg) :: snd (f tt)).
Proof. unfold lift, emit. cbn [fst snd map]. now rewrite and_then_normal. Qed.

Lemma and_then_lift (A B : Type) (m : M A) a (f : A -> P B) :
  result m = Return a ->
  and_then (lift m) f = (fst (f a), map Logged (log m) ++ snd (f a)).
Proof.
  unfold result, log, lift. intros ->. now rewrite and_then_normal.
Qed.

Lemma and_then_stopped (A B : Type) s t (f : A -> P B) :
  and_then (Stopped s, t) f = (Stopped s, t).
Proof. reflexivity. Qed.

Lemma and_then_returns (A B : Type) (m : P A) a (f : A -> P B) :
  fst m = Normal a -> and_then m f = (fst (f a), snd m ++ snd (f a)).
Proof. destruct m as [r t]. simpl. intros ->. apply and_then_normal. Qed.

Lemma outputs_app t t' : outputs (t ++ t') = outputs t ++ outputs t'.
Proof. unfold outputs. apply filter_app. Qed.

Lemma outputs_logged lg : outputs (map Logged lg) = [].
Proof. induction lg as [|r lg IH]; [reflexivity | exact IH]. Qed.

Lemma filter_logged (f : event -> bool) lg :
  (forall r, f (Logged r) = false) -> filter f (map Logged lg) = [].
Proof.
  intros Hf. induction lg as [|r lg IH]; [reflexivity|].
  simpl. now rewrite Hf.
Qed.

(** A file that opens and parses is loaded silently. *)
Lemma load_permissions_data_parsed w path text data :
  open_read w path = inr text ->
  json_load w text = Parsed data ->
  load_permissions_data w path = (Normal data, []).
Proof. unfold load_permissions_data. now intros -> ->. Qed.

(** Whatever the files do, loading returns, and logs records only. *)
Lemma load_permissions_data_returns w path :
  exists data lg,
    load_permissions_data w path = (Normal data, map Logged lg) /\
    (lg = [] \/ data = VNone).
Proof.
  unfold load_permissions_data.
  destruct (open_read w path) as [[|e]|text].
  - eexists VNone, [_]. split; [reflexivity | now right].
  - eexists VNone, [_]. split; [reflexivity | now right].
  - destruct (json_load w text) as [data| |e].
    + exists data, []. split; [reflexivity | now left].
    + eexists VNone, [_]. split; [reflexivity | now right].
    + eexists VNone, [_]. split; [reflexivity | now right].
Qed.

(** The evaluator always returns, and returns nothing for a value that
    is no dict. *)
Lemma find_shadow_admins_returns u a :
  exists res,
    result (find_shadow_admins u a) = Return res /\
    (isinstance_dict u = false ->
     res = [] /\ exists msg, log (find_shadow_admins u a) = [(ERROR, msg)]).
Proof.
  destruct (isinstance_dict u) eqn:Hu.
  - destruct u as [| | | | | d]; try discriminate.
    destruct (isinstance_list a) eqn:Ha.
    + destruct a as [| | | | adm |]; try discriminate.
      rewrite find_shadow_admins_dict_list.
      eexists. split; [reflexivity | discriminate].
    + rewrite find_shadow_admins_not_list by assumption.
      eexists. split; [reflexivity | discriminate].
  - rewrite find_shadow_admins_not_dict by assumption.
    eexists. split; [reflexivity|]. intros _. split; [reflexivity|].
    eexists. reflexivity.
Qed.

(** X5. [load_permissions_data] lets no failure of [open] or of
    [json.load] through, and tells the failures apart.  A file that
    opens and parses gives the parsed value and an empty log; a missing
    file, a text that is no JSON and any other exception each give
    [None] and the one ERROR record of their handler, with the path (and
    the text of the exception) in it. *)
Theorem load_permissions_data_outcome w path :
  (exists data trace,
     load_permissions_data w path = (Normal data, trace) /\
     (data = VNone \/ trace = [])) /\
  (forall text data,
     open_read w path = inr text -> json_load w text = Parsed data ->
     load_permissions_data w path = (Normal data, [])) /\
  (open_read w path = inl NoSuchFile ->
   load_permissions_data w path =
   (Normal VNone, [Logged (ERROR, ("File not found: " ++ path)%string)])) /\
  (forall text,
     open_read w path = inr text -> json_load w text = Malformed ->
     load_permissions_data w path =
     (Normal VNone,
      [Logged (ERROR, ("Invalid JSON format in file: " ++ path)%string)])) /\
  (forall e,
     open_read w path = inl (OpenFails e) \/
     (exists text,
        open_read w path = inr text /\ json_load w text = LoadFails e) ->
     load_permissions_data w path =
     (Normal VNone,
      [Logged (ERROR,
               ("Error loading data from " ++ path ++ ": " ++ e)%string)])).
Proof.
  unfold load_permissions_data. repeat split.
  - destruct (open_read w path) as [[|e]|text];
      [| |destruct (json_load w text) as [data| |e]];
      do 2 eexists; (split; [reflexivity|]); auto.
  - now intros text data -> ->.
  - now intros ->.
  - now intros text -> ->.
  - intros e [->|(text & -> & ->)]; reflexivity.
Qed.

Lemma str_app_nil_r (s : string) : (s ++ "")%string = s.
Proof. induction s as [|c s IH]; simpl; [reflexivity | now rewrite IH]. Qed.

Lemma str_app_assoc (s t u : string) :
  ((s ++ t) ++ u)%string = (s ++ t ++ u)%string.
Proof. induction s as [|c s IH]; simpl; [reflexivity | now rewrite IH]. Qed.


(** A loop that ends without an exception has written every line. *)
Lemma write_users_done w results : forall content text,
  write_users w results content = (text, None) ->
  text = (content ++ lines_text results)%string.
Proof.
  induction results as [|user results IH]; intros content text;
    cbn [write_users lines_text].
  - intros [= <-]. now rewrite str_app_nil_r.
  - destruct (write_text w (user ++ nl)); [discriminate|].
    intros H. apply IH in H. now rewrite H, !str_app_assoc.
Qed.


Lemma line_inj u : forall u' s s',
  no_newline u = true -> no_newline u' = true ->
  (u ++ nl ++ s)%string = (u' ++ nl ++ s')%string ->
  u = u' /\ s = s'.
Proof.
  induction u as [|c u IH]; intros [|c' u'] s s' Hu Hu' Heq;
    simpl in Hu, Hu', Heq.
  - injection Heq as ->. now split.
  - injection Heq as <- _. apply andb_true_iff in Hu' as [Hc _].
    now rewrite Ascii.eqb_refl in Hc.
  - injection Heq as -> _. apply andb_true_iff in Hu as [Hc _].
    now rewrite Ascii.eqb_refl in Hc.
  - injection Heq as -> Heq.
    apply andb_true_iff in Hu as [_ Hu]. apply andb_true_iff in Hu' as [_ Hu'].
    destruct (IH _ _ _ Hu Hu' Heq) as [-> ->]. now split.
Qed.

Lemma lines_text_inj results : forall results',
  forallb no_newline results = true ->
  forallb no_newline results' = true ->
  lines_text results = lines_text results' ->
  results = results'.
Proof.
  induction results as [|u results IH]; intros [|u' results'] H H' Heq;
    cbn [lines_text] in Heq.
  - reflexivity.
  - destruct u'; discriminate.
  - destruct u; discriminate.
  - cbn [forallb] in H, H'.
    apply andb_true_iff in H as [Hu H]. apply andb_true_iff in H' as [Hu' H'].
    destruct (line_inj _ _ _ _ Hu Hu' Heq) as [-> Hrest].
    f_equal. now apply IH.
Qed.

(** X6. The text [save_results] writes tells the saved list: when every
    write succeeds and no user name contains a line feed, two lists of
    users that leave the same text in the file are the same list. *)
Theorem save_results_text_injective w results results' text :
  forallb no_newline results = true ->
  forallb no_newline results' = true ->
  write_users w results "" = (text, None) ->
  write_users w results' "" = (text, None) ->
  results = results'.
Proof.
  intros Hr Hr' Hw Hw'.
  apply write_users_done in Hw. apply write_users_done in Hw'.
  cbn [String.append] in Hw, Hw'.
  apply lines_text_inj; congruence.
Qed.

Lemma save_results_text_injective_witness :
  forallb no_newline ["alice"; "bob"] = true /\
  forallb no_newline ["alice"; "bob"] = true /\
  write_users demo_world ["alice"; "bob"] ""
  = (("alice" ++ nl ++ "bob" ++ nl)%string, None) /\
  write_users demo_world ["alice"; "bob"] ""
  = (("alice" ++ nl ++ "bob" ++ nl)%string, None) /\
  ["alice"; "bob"] = ["alice"; "bob"].
Proof.
  do 4 (split; [reflexivity|]).
  exact (@save_results_text_injective demo_world ["alice"; "bob"]
           ["alice"; "bob"] ("alice" ++ nl ++ "bob" ++ nl)%string
           eq_refl eq_refl eq_refl eq_refl).
Defined.

Lemma save_results_returns w results path :
  fst (save_results w results path) = Normal tt.
Proof.
  unfold save_results. destruct (open_write w path); [reflexivity|].
  destruct (write_users w results "") as [content [e|]]; reflexivity.
Qed.



Lemma fold_add_row results : forall t,
  fold_left (fun table user => add_row table [user]) results t =
  {| show_header := show_header t;
     header_style := header_style t;
     columns := columns t;
     rows := rows t ++ map (fun user => [user]) results |}.
Proof.
  induction results as [|user results IH]; intros t; simpl.
  - rewrite app_nil_r. now destruct t.
  - rewrite IH. simpl. now rewrite <- app_assoc.
Qed.

Lemma concat_cells (results : list string) :
  List.concat (map (fun user => [user]) results) = results.
Proof.
  induction results as [|user results IH]; [reflexivity|].
  simpl. now rewrite IH.
Qed.

(** The printing step prints once, or stops on an exception of [rich]
    having printed nothing. *)
Lemma display_results_cases w results :
  (exists e, display_results w results = (Normal tt, [e]) /\
             is_print e = true) \/
  (exists x, display_results w results = (Stopped (Uncaught x), [])).
Proof.
  unfold display_results. destruct results as [|user results].
  - left. eexists. split; reflexivity.
  - unfold console_print_table.
    destruct (first_error _ _) as [x|].
    + right. now exists x.
    + left. eexists. split; reflexivity.
Qed.

(** X7. [display_results] prints at most once.  For the empty list it
    prints the message that no shadow admin was found.  Otherwise, when
    [rich] can render every user name, it prints one table with the one
    column "Shadow Admin User" and one row per user in the order of the
    list; when it cannot, the exception of the first such name stops the
    run and nothing is printed. *)
Theorem display_results_prints w results :
  display_results w results =
  match results with
  | [] => (Normal tt, [Printed "[bold yellow]No shadow admins found.[/]"])
  | _ :: _ =>
      match first_error (cell_error w) results with
      | Some x => (Stopped (Uncaught x), [])
      | None =>
          (Normal tt,
           [PrintedTable
              {| show_header := true;
                 header_style := "bold magenta";
                 columns := [("Shadow Admin User", "cyan")];
                 rows := map (fun user => [user]) results |}])
      end
  end.
Proof.
  unfold display_results. destruct results as [|user results];
    [reflexivity|].
  unfold console_print_table. rewrite fold_add_row.
  cbn [rows add_column app]. now rewrite concat_cells.
Qed.

(** ** The command line: [main] *)

(** [main] up to the test on the two loaded values. *)
Ltac main_loaded Hu He :=
  unfold main;
  rewrite and_then_perform; cbv beta;
  rewrite Hu, and_then_normal; cbv beta;
  rewrite He, and_then_normal; cbv beta;
  cbn [fst snd].

Lemma py_get_dict d key :
  py_get (VDict d) key =
  (Return (match dict_get d key with Some x => x | None => VNone end), []).
Proof. reflexivity. Qed.

Lemma py_get_not_dict v key :
  isinstance_dict v = false -> py_get v key = (Raise AttributeError, []).
Proof. destruct v; try reflexivity. discriminate. Qed.

Lemma lift_return (A : Type) (a : A) lg :
  lift (Return a, lg) = (Normal a, map Logged lg).
Proof. reflexivity. Qed.

Lemma lift_raise (A : Type) (e : exn) :
  lift (@Raise A e, []) = (Stopped (Uncaught e), []).
Proof. reflexivity. Qed.

(** X8. When either file fails to load, or holds the JSON value [null],
    [main] logs that loading failed and exits with status 1; before that
    it has written no file and printed nothing. *)
Theorem main_exits_on_None w a :
  fst (load_permissions_data w (user_permissions_file a)) = Normal VNone \/
  fst (load_permissions_data w (effective_admin_permissions_file a))
  = Normal VNone ->
  exists lg,
    main w a =
    (Stopped (SystemExit 1),
     SetLevel (log_level a) ::
     map Logged
       (lg ++ [(ERROR, "Failed to load permissions data. Exiting.")])).
Proof.
  intros H.
  destruct (load_permissions_data_returns w (user_permissions_file a))
    as (u & lu & Hu & _).
  destruct (load_permissions_data_returns w
              (effective_admin_permissions_file a)) as (e & le & He & _).
  rewrite Hu, He in H. cbn [fst] in H.
  assert (Hnone : is_none u || is_none e = true).
  { destruct H as [[= ->]|[= ->]]; [reflexivity | apply orb_true_r]. }
  main_loaded Hu He. unfold logging_error. rewrite Hnone, and_then_log.
  exists (lu ++ le). cbn [fst snd sys_exit].
  now rewrite !map_app, <- !app_assoc.
Qed.

Lemma main_exits_on_None_witness :
  (fst (load_permissions_data demo_world
          (user_permissions_file
             (demo_args "null.json" "admin.json" (Some "out.txt"))))
   = Normal VNone \/
   fst (load_permissions_data demo_world
          (effective_admin_permissions_file
             (demo_args "null.json" "admin.json" (Some "out.txt"))))
   = Normal VNone) /\
  exists lg,
    main demo_world (demo_args "null.json" "admin.json" (Some "out.txt")) =
    (Stopped (SystemExit 1),
     SetLevel (log_level (demo_args "null.json" "admin.json" (Some "out.txt")))
     :: map Logged
          (lg ++ [(ERROR, "Failed to load permissions data. Exiting.")])).
Proof.
  split; [left; reflexivity|].
  apply main_exits_on_None. left. reflexivity.
Defined.

Lemma holds_loaded w path data :
  holds w path data -> load_permissions_data w path = (Normal data, []).
Proof.
  intros (text & Hopen & Hload).
  eapply load_permissions_data_parsed; eassumption.
Qed.

(** X9. When the users document loads to a value other than [null] and
    the admin document loads to a JSON value that is neither an object
    nor [null] (an array of permissions, say), [main] does not report an
    invalid format: the call of [.get] raises [AttributeError], which
    nothing catches, before anything is logged, written or printed. *)
Theorem main_profile_not_object w a u e :
  holds w (user_permissions_file a) u ->
  holds w (effective_admin_permissions_file a) e ->
  is_none u = false ->
  is_none e = false ->
  isinstance_dict e = false ->
  main w a = (Stopped (Uncaught AttributeError), [SetLevel (log_level a)]).
Proof.
  intros Hu%holds_loaded He%holds_loaded Hnu Hne Hdict.
  main_loaded Hu He. rewrite Hnu, Hne. cbn [orb].
  rewrite py_get_not_dict by assumption.
  rewrite lift_raise, and_then_stopped.
  reflexivity.
Qed.

Lemma main_profile_not_object_witness :
  holds demo_world
    (user_permissions_file (demo_args "users.json" "list.json" None))
    users_alice_bob /\
  holds demo_world
    (effective_admin_permissions_file
       (demo_args "users.json" "list.json" None))
    admin_shadow_sudoers /\
  is_none users_alice_bob = false /\
  is_none admin_shadow_sudoers = false /\
  isinstance_dict admin_shadow_sudoers = false /\
  main demo_world (demo_args "users.json" "list.json" None) =
  (Stopped (Uncaught AttributeError),
   [SetLevel (log_level (demo_args "users.json" "list.json" None))]).
Proof.
  assert (Hu : holds demo_world
                 (user_permissions_file
                    (demo_args "users.json" "list.json" None))
                 users_alice_bob)
    by (exists "users"; split; reflexivity).
  assert (He : holds demo_world
                 (effective_admin_permissions_file
                    (demo_args "users.json" "list.json" None))
                 admin_shadow_sudoers)
    by (exists "list"; split; reflexivity).
  repeat (split; [first [exact Hu | exact He | reflexivity]|]).
  exact (@main_profile_not_object demo_world
           (demo_args "users.json" "list.json" None)
           users_alice_bob admin_shadow_sudoers Hu He eq_refl eq_refl eq_refl).
Defined.

(** X10. When the users document loads to a value other than [null] and
    the admin document is an object without a list under "permissions",
    [main] logs the invalid format and exits with status 1: the
    evaluator is not run, no file is written and nothing is printed. *)
Theorem main_permissions_not_list w a u d :
  holds w (user_permissions_file a) u ->
  holds w (effective_admin_permissions_file a) (VDict d) ->
  is_none u = false ->
  (forall adm, dict_get d "permissions" <> Some (VList adm)) ->
  main w a =
  (Stopped (SystemExit 1),
   [SetLevel (log_level a);
    Logged (ERROR,
            "Invalid format for effective admin permissions. Expected list of permissions in a 'permissions' key.  Exiting.")]).
Proof.
  intros Hu%holds_loaded He%holds_loaded Hnu Hperm.
  main_loaded Hu He. rewrite Hnu. cbn [orb is_none].
  rewrite py_get_dict, lift_return, and_then_normal.
  cbv beta. cbn [fst snd map app].
  assert (Hnl : isinstance_list
                  match dict_get d "permissions" with
                  | Some x => x
                  | None => VNone
                  end = false).
  { destruct (dict_get d "permissions") as [[| | | | adm |]|] eqn:Hd;
      try reflexivity.
    now destruct (Hperm adm). }
  rewrite Hnl. cbn [negb]. unfold logging_error. rewrite and_then_log.
  reflexivity.
Qed.

Lemma main_permissions_not_list_witness :
  holds demo_world
    (user_permissions_file (demo_args "users.json" "users.json" None))
    users_alice_bob /\
  holds demo_world
    (effective_admin_permissions_file
       (demo_args "users.json" "users.json" None))
    (VDict items_alice_bob) /\
  is_none users_alice_bob = false /\
  (forall adm, dict_get items_alice_bob "permissions" <> Some (VList adm)) /\
  main demo_world (demo_args "users.json" "users.json" None) =
  (Stopped (SystemExit 1),
   [SetLevel (log_level (demo_args "users.json" "users.json" None));
    Logged (ERROR,
            "Invalid format for effective admin permissions. Expected list of permissions in a 'permissions' key.  Exiting.")]).
Proof.
  assert (Hu : holds demo_world
                 (user_permissions_file
                    (demo_args "users.json" "users.json" None))
                 users_alice_bob)
    by (exists "users"; split; reflexivity).
  assert (Hperm : forall adm,
             dict_get items_alice_bob "permissions" <> Some (VList adm))
    by (intros adm; discriminate).
  split; [exact Hu|]. split; [exact Hu|]. split; [reflexivity|].
  split; [exact Hperm|].
  exact (@main_permissions_not_list demo_world
           (demo_args "users.json" "users.json" None)
           users_alice_bob items_alice_bob Hu Hu eq_refl Hperm).
Defined.

(** The run of [main] once it gets as far as the evaluator: it ends as
    the printing step ends. *)
Lemma main_trace_success w a u d adm res :
  load_permissions_data w (user_permissions_file a) = (Normal u, []) ->
  load_permissions_data w (effective_admin_permissions_file a)
  = (Normal (VDict d), []) ->
  is_none u = false ->
  dict_get d "permissions" = Some (VList adm) ->
  result (find_shadow_admins u (VList adm)) = Return res ->
  main w a =
  (fst (display_results w res),
   SetLevel (log_level a) ::
   map Logged (log (find_shadow_admins u (VList adm))) ++
   saving w a res ++ snd (display_results w res)).
Proof.
  intros Hu He Hnu Hperm Hres.
  main_loaded Hu He. rewrite Hnu. cbn [orb is_none].
  rewrite py_get_dict, Hperm, lift_return, and_then_normal.
  cbv beta. cbn [fst snd map app isinstance_list negb].
  rewrite (and_then_lift _ _ Hres). cbv beta. cbn [fst snd].
  unfold saving. destruct (truthy_path (output_file a)) as [path|].
  - rewrite (and_then_returns _ _ (save_results_returns w res path)).
    reflexivity.
  - rewrite and_then_pure. reflexivity.
Qed.

Lemma load_permissions_data_plain w path data lg :
  load_permissions_data w path = (Normal data, map Logged lg) ->
  forallb plain_record lg = true.
Proof.
  unfold load_permissions_data.
  destruct (open_read w path) as [[|e]|text];
    [| |destruct (json_load w text) as [v| |e]];
    intros H; apply (f_equal snd) in H; cbn in H;
    destruct lg as [|r [|r' lg]]; try discriminate; try reflexivity;
    injection H as <-; reflexivity.
Qed.

Lemma find_shadow_admins_plain u a :
  forallb plain_record (log (find_shadow_admins u a)) = true.
Proof.
  destruct (isinstance_dict u) eqn:Hu.
  - destruct u as [| | | | | d]; try discriminate.
    destruct (isinstance_list a) eqn:Ha.
    + destruct a as [| | | | adm |]; try discriminate.
      rewrite find_shadow_admins_dict_list. unfold log. cbn [snd].
      clear Hu Ha. induction d as [|[user v] d IH]; [reflexivity|].
      cbn [flat_map]. rewrite forallb_app, IH, item_log_item.
      destruct v as [| | | | perms |]; try reflexivity.
      now destruct (list_issubset adm perms).
    + now rewrite find_shadow_admins_not_list.
  - now rewrite find_shadow_admins_not_dict.
Qed.

(** Every run of [main] is of one of two kinds: it stops on [sys.exit]
    or on the [AttributeError] of [.get], having only logged, or it runs
    the evaluator, the optional saving and the printing, and ends as the
    printing ends.  Its records are at the levels INFO, WARNING and
    ERROR. *)
Lemma main_cases w a :
  (exists s lg,
     main w a = (Stopped s, SetLevel (log_level a) :: map Logged lg) /\
     forallb plain_record lg = true) \/
  (exists lg res,
     main w a =
     (fst (display_results w res),
      SetLevel (log_level a) :: map Logged lg ++
      saving w a res ++ snd (display_results w res)) /\
     forallb plain_record lg = true).
Proof.
  destruct (load_permissions_data_returns w (user_permissions_file a))
    as (u & lu & Hu & Hlu).
  destruct (load_permissions_data_returns w
              (effective_admin_permissions_file a)) as (e & le & He & Hle).
  pose proof (load_permissions_data_plain _ _ _ Hu) as Hpu.
  pose proof (load_permissions_data_plain _ _ _ He) as Hpe.
  destruct (is_none u || is_none e) eqn:Hnone.
  - left. main_loaded Hu He. unfold logging_error.
    rewrite Hnone, and_then_log.
    eexists (SystemExit 1), (lu ++ le ++ [(ERROR, _)]).
    cbn [fst snd sys_exit]. split; [now rewrite !map_app|].
    now rewrite !forallb_app, Hpu, Hpe.
  - apply orb_false_iff in Hnone as [Hnu Hne].
    destruct Hlu as [-> | ->]; [|discriminate].
    destruct Hle as [-> | ->]; [|discriminate].
    destruct (isinstance_dict e) eqn:Hdict.
    + destruct e as [| | | | | d]; try discriminate.
      destruct (dict_get d "permissions") as [[| | | | adm |]|] eqn:Hperm;
        try (left; main_loaded Hu He; rewrite Hnu; cbn [orb is_none];
             rewrite py_get_dict, Hperm, lift_return, and_then_normal;
             cbv beta; cbn [fst snd map app isinstance_list negb];
             unfold logging_error; rewrite and_then_log;
             eexists (SystemExit 1), [(ERROR, _)]; split; reflexivity).
      right.
      destruct (find_shadow_admins_returns u (VList adm)) as (res & Hres & _).
      eexists _, res. split.
      * eapply main_trace_success; eassumption.
      * apply find_shadow_admins_plain.
    + left. main_loaded Hu He. rewrite Hnu, Hne. cbn [orb].
      rewrite py_get_not_dict by assumption.
      rewrite lift_raise, and_then_stopped.
      exists (Uncaught AttributeError), []. split; reflexivity.
Qed.

(** What the saving step leaves in the trace: at most one file, and
    records at INFO or ERROR. *)
Lemma saving_records w a res e :
  In e (saving w a res) ->
  (exists path content, e = Wrote path content) \/
  (exists r, e = Logged r /\ plain_record r = true).
Proof.
  unfold saving. destruct (truthy_path (output_file a)) as [path|];
    [|intros []].
  unfold save_results. destruct (open_write w path) as [msg|].
  - intros [<-|[]]. right. eexists. split; reflexivity.
  - destruct (write_users w res "") as [content [msg|]];
      intros [<-|[<-|[]]];
      solve [left; eauto | right; eexists; split; reflexivity].
Qed.

Lemma saving_no_print w a res : filter is_print (saving w a res) = [].
Proof.
  unfold saving. destruct (truthy_path (output_file a)) as [path|];
    [|reflexivity].
  unfold save_results. destruct (open_write w path); [reflexivity|].
  destruct (write_users w res "") as [content [msg|]]; reflexivity.
Qed.

(** X11. With a users document other than [null] and an admin document
    that is an object with a list under "permissions", [main] runs the
    evaluator on the users document and that list, then the saving step
    on the evaluator's result, then the printing of that result, and it
    ends as the printing ends: normally, or on the exception [rich]
    raises for a user name it cannot render.  Its trace is the change of
    log level, the log of the evaluator, the trace of the saving and the
    trace of the printing, in this order. *)
Theorem main_runs_evaluator w a u d adm :
  holds w (user_permissions_file a) u ->
  holds w (effective_admin_permissions_file a) (VDict d) ->
  is_none u = false ->
  dict_get d "permissions" = Some (VList adm) ->
  exists res,
    result (find_shadow_admins u (VList adm)) = Return res /\
    main w a =
    (fst (display_results w res),
     SetLevel (log_level a) ::
     map Logged (log (find_shadow_admins u (VList adm))) ++
     saving w a res ++ snd (display_results w res)).
Proof.
  intros Hu%holds_loaded He%holds_loaded Hnu Hperm.
  destruct (find_shadow_admins_returns u (VList adm)) as (res & Hres & _).
  exists res. split; [assumption|].
  eapply main_trace_success; eassumption.
Qed.

Lemma main_runs_evaluator_witness :
  holds demo_world
    (user_permissions_file
       (demo_args "markup.json" "admin.json" (Some "out.txt")))
    (VDict items_markup) /\
  holds demo_world
    (effective_admin_permissions_file
       (demo_args "markup.json" "admin.json" (Some "out.txt")))
    (VDict [("permissions", admin_shadow_sudoers)]) /\
  is_none (VDict items_markup) = false /\
  dict_get [("permissions", admin_shadow_sudoers)] "permissions"
  = Some (VList perms_shadow_sudoers) /\
  exists res,
    result (find_shadow_admins (VDict items_markup)
              (VList perms_shadow_sudoers))
    = Return res /\
    main demo_world (demo_args "markup.json" "admin.json" (Some "out.txt")) =
    (fst (display_results demo_world res),
     SetLevel
       (log_level (demo_args "markup.json" "admin.json" (Some "out.txt"))) ::
     map Logged
       (log (find_shadow_admins (VDict items_markup)
               (VList perms_shadow_sudoers))) ++
     saving demo_world
       (demo_args "markup.json" "admin.json" (Some "out.txt")) res ++
     snd (display_results demo_world res)).
Proof.
  assert (Hu : holds demo_world
                 (user_permissions_file
                    (demo_args "markup.json" "admin.json" (Some "out.txt")))
                 (VDict items_markup))
    by (exists "markup"; split; reflexivity).
  assert (He : holds demo_world
                 (effective_admin_permissions_file
                    (demo_args "markup.json" "admin.json" (Some "out.txt")))
                 (VDict [("permissions", admin_shadow_sudoers)]))
    by (exists "admin"; split; reflexivity).
  split; [exact Hu|]. split; [exact He|].
  split; [reflexivity|]. split; [reflexivity|].
  exact (@main_runs_evaluator demo_world
           (demo_args "markup.json" "admin.json" (Some "out.txt"))
           (VDict items_markup) [("permissions", admin_shadow_sudoers)]
           perms_shadow_sudoers Hu He eq_refl eq_refl).
Defined.

(** X12. When the users document loads to a value that is neither
    [null] nor an object (an array, a string, a number) and the admin
    document is an object with a list under "permissions", [main] is not
    stopped: the evaluator's error is logged, the saving step runs on
    the empty list, "No shadow admins found." is printed and [main] ends
    normally. *)
Theorem main_users_not_dict w a u d adm :
  holds w (user_permissions_file a) u ->
  holds w (effective_admin_permissions_file a) (VDict d) ->
  is_none u = false ->
  isinstance_dict u = false ->
  dict_get d "permissions" = Some (VList adm) ->
  main w a =
  (Normal tt,
   SetLevel (log_level a) ::
   Logged (ERROR, "Invalid user permissions data. Expected a dictionary.") ::
   saving w a [] ++ [Printed "[bold yellow]No shadow admins found.[/]"]).
Proof.
  intros Hu%holds_loaded He%holds_loaded Hnu Hdict Hperm.
  rewrite (@main_trace_success w a u d adm []); try assumption.
  - now rewrite find_shadow_admins_not_dict.
  - now rewrite find_shadow_admins_not_dict.
Qed.

Lemma main_users_not_dict_witness :
  holds demo_world
    (user_permissions_file (demo_args "list.json" "admin.json" None))
    admin_shadow_sudoers /\
  holds demo_world
    (effective_admin_permissions_file
       (demo_args "list.json" "admin.json" None))
    (VDict [("permissions", admin_shadow_sudoers)]) /\
  is_none admin_shadow_sudoers = false /\
  isinstance_dict admin_shadow_sudoers = false /\
  dict_get [("permissions", admin_shadow_sudoers)] "permissions"
  = Some (VList perms_shadow_sudoers) /\
  main demo_world (demo_args "list.json" "admin.json" None) =
  (Normal tt,
   SetLevel (log_level (demo_args "list.json" "admin.json" None)) ::
   Logged (ERROR, "Invalid user permissions data. Expected a dictionary.") ::
   saving demo_world (demo_args "list.json" "admin.json" None) [] ++
   [Printed "[bold yellow]No shadow admins found.[/]"]).
Proof.
  assert (Hu : holds demo_world
                 (user_permissions_file
                    (demo_args "list.json" "admin.json" None))
                 admin_shadow_sudoers)
    by (exists "list"; split; reflexivity).
  assert (He : holds demo_world
                 (effective_admin_permissions_file
                    (demo_args "list.json" "admin.json" None))
                 (VDict [("permissions", admin_shadow_sudoers)]))
    by (exists "admin"; split; reflexivity).
  split; [exact Hu|]. split; [exact He|].
  do 3 (split; [reflexivity|]).
  exact (@main_users_not_dict demo_world
           (demo_args "list.json" "admin.json" None)
           admin_shadow_sudoers [("permissions", admin_shadow_sudoers)]
           perms_shadow_sudoers Hu He eq_refl eq_refl eq_refl).
Defined.

(** X13. A results file that cannot be opened does not keep [main] from
    the printing step: the failure is logged as one ERROR record with
    the path and the text of the exception, no file is written, and
    [main] goes on to print the result of the evaluator and ends as the
    printing ends. *)
Theorem main_save_failure w a u d adm path msg :
  holds w (user_permissions_file a) u ->
  holds w (effective_admin_permissions_file a) (VDict d) ->
  is_none u = false ->
  dict_get d "permissions" = Some (VList adm) ->
  truthy_path (output_file a) = Some path ->
  open_write w path = Some msg ->
  exists res,
    result (find_shadow_admins u (VList adm)) = Return res /\
    main w a =
    (fst (display_results w res),
     SetLevel (log_level a) ::
     map Logged (log (find_shadow_admins u (VList adm))) ++
     Logged (ERROR,
             ("Error saving results to " ++ path ++ ": " ++ msg)%string) ::
     snd (display_results w res)).
Proof.
  intros Hu%holds_loaded He%holds_loaded Hnu Hperm Hout Hopen.
  destruct (find_shadow_admins_returns u (VList adm)) as (res & Hres & _).
  exists res. split; [assumption|].
  rewrite (main_trace_success _ _ Hu He Hnu Hperm Hres).
  unfold saving, save_results. now rewrite Hout, Hopen.
Qed.

Lemma main_save_failure_witness :
  holds demo_world
    (user_permissions_file (demo_args "users.json" "admin.json" (Some "/")))
    users_alice_bob /\
  holds demo_world
    (effective_admin_permissions_file
       (demo_args "users.json" "admin.json" (Some "/")))
    (VDict [("permissions", admin_shadow_sudoers)]) /\
  is_none users_alice_bob = false /\
  dict_get [("permissions", admin_shadow_sudoers)] "permissions"
  = Some (VList perms_shadow_sudoers) /\
  truthy_path (output_file (demo_args "users.json" "admin.json" (Some "/")))
  = Some "/" /\
  open_write demo_world "/" = Some "[Errno 21] Is a directory: '/'" /\
  exists res,
    result (find_shadow_admins users_alice_bob (VList perms_shadow_sudoers))
    = Return res /\
    main demo_world (demo_args "users.json" "admin.json" (Some "/")) =
    (fst (display_results demo_world res),
     SetLevel (log_level (demo_args "users.json" "admin.json" (Some "/"))) ::
     map Logged
       (log (find_shadow_admins users_alice_bob
               (VList perms_shadow_sudoers))) ++
     Logged (ERROR,
             ("Error saving results to " ++ "/" ++ ": "
                ++ "[Errno 21] Is a directory: '/'")%string) ::
     snd (display_results demo_world res)).
Proof.
  assert (Hu : holds demo_world
                 (user_permissions_file
                    (demo_args "users.json" "admin.json" (Some "/")))
                 users_alice_bob)
    by (exists "users"; split; reflexivity).
  assert (He : holds demo_world
                 (effective_admin_permissions_file
                    (demo_args "users.json" "admin.json" (Some "/")))
                 (VDict [("permissions", admin_shadow_sudoers)]))
    by (exists "admin"; split; reflexivity).
  split; [exact Hu|]. split; [exact He|].
  do 4 (split; [reflexivity|]).
  exact (@main_save_failure demo_world
           (demo_args "users.json" "admin.json" (Some "/"))
           users_alice_bob [("permissions", admin_shadow_sudoers)]
           perms_shadow_sudoers "/" "[Errno 21] Is a directory: '/'"
           Hu He eq_refl eq_refl eq_refl eq_refl).
Defined.



(** X15. A run of [main] that does not end normally has printed
    nothing; when it stops on [sys.exit] it has written no file either.
    (A run stopped by an exception of the printing step may have written
    the results file before.) *)
Theorem main_stopped_prints_nothing w a :
  fst (main w a) <> Normal tt ->
  filter is_print (snd (main w a)) = [] /\
  (forall code, fst (main w a) = Stopped (SystemExit code) ->
                outputs (snd (main w a)) = []).
Proof.
  intros Hstop.
  destruct (main_cases w a) as [(s & lg & H & _)|(lg & res & H & _)];
    rewrite H in *; cbn [fst snd] in *.
  - split.
    + cbn [filter is_print]. now apply filter_logged.
    + intros _ _. change (outputs (map Logged lg) = []).
      apply outputs_logged.
  - destruct (display_results_cases w res) as [(e & Hd & _)|(x & Hd)];
      rewrite Hd in *; cbn [fst snd] in *; [now destruct Hstop|].
    split; [|discriminate].
    cbn [filter is_print].
    rewrite filter_app, filter_logged, app_nil_r, saving_no_print
      by reflexivity.
    reflexivity.
Qed.

Lemma main_stopped_prints_nothing_witness :
  fst (main demo_world (demo_args "markup.json" "admin.json" (Some "out.txt")))
  <> Normal tt /\
  filter is_print
    (snd (main demo_world
            (demo_args "markup.json" "admin.json" (Some "out.txt")))) = [] /\
  (forall code,
     fst (main demo_world
            (demo_args "markup.json" "admin.json" (Some "out.txt")))
     = Stopped (SystemExit code) ->
     outputs
       (snd (main demo_world
               (demo_args "markup.json" "admin.json" (Some "out.txt"))))
     = []).
Proof.
  assert (H : fst (main demo_world
                     (demo_args "markup.json" "admin.json" (Some "out.txt")))
              <> Normal tt)
    by (vm_compute; discriminate).
  split; [exact H|].
  exact (main_stopped_prints_nothing _ _ H).
Defined.

(** X16. A run of [main] that ends normally prints exactly once, and the
    printing is the last thing it does. *)
Theorem main_prints_once_at_end w a :
  fst (main w a) = Normal tt ->
  exists trace e,
    snd (main w a) = trace ++ [e] /\
    is_print e = true /\
    filter is_print trace = [].
Proof.
  intros Hend.
  destruct (main_cases w a) as [(s & lg & H & _)|(lg & res & H & _)].
  - rewrite H in Hend. discriminate.
  - rewrite H in *. cbn [fst snd] in *.
    destruct (display_results_cases w res) as [(e & Hd & He)|(x & Hd)];
      rewrite Hd in *; [|discriminate].
    exists (SetLevel (log_level a) :: map Logged lg ++ saving w a res), e.
    cbn [snd]. split; [now rewrite <- app_comm_cons, <- app_assoc|].
    split; [assumption|].
    cbn [filter is_print].
    rewrite filter_app, filter_logged, saving_no_print by reflexivity.
    reflexivity.
Qed.

Lemma main_prints_once_at_end_witness :
  fst (main demo_world (demo_args "users.json" "admin.json" (Some "out.txt")))
  = Normal tt /\
  exists trace e,
    snd (main demo_world
           (demo_args "users.json" "admin.json" (Some "out.txt")))
    = trace ++ [e] /\
    is_print e = true /\
    filter is_print trace = [].
Proof.
  split; [reflexivity|].
  apply main_prints_once_at_end. reflexivity.
Defined.

(** X17. Without [--output-file], or with the empty string as its value,
    [main] writes no file, whatever the documents hold. *)
Theorem main_no_output_file w a :
  output_file a = None \/ output_file a = Some "" ->
  filter is_write (snd (main w a)) = [].
Proof.
  intros Hout.
  assert (Hpath : truthy_path (output_file a) = None)
    by (destruct Hout as [-> | ->]; reflexivity).
  destruct (main_cases w a) as [(s & lg & -> & _)|(lg & res & -> & _)];
    cbn [snd].
  - cbn [filter is_write]. now apply filter_logged.
  - unfold saving. rewrite Hpath. cbn [filter is_write snd app].
    rewrite filter_app, filter_logged by reflexivity.
    destruct (display_results_cases w res) as [(e & -> & He)|(x & ->)];
      [|reflexivity].
    destruct e; try discriminate; reflexivity.
Qed.

Lemma main_no_output_file_witness :
  (output_file (demo_args "users.json" "admin.json" (Some "")) = None \/
   output_file (demo_args "users.json" "admin.json" (Some "")) = Some "") /\
  filter is_write
    (snd (main demo_world (demo_args "users.json" "admin.json" (Some ""))))
  = [].
Proof.
  split; [right; reflexivity|].
  apply main_no_output_file. right. reflexivity.
Defined.

(** X18. The log level chosen on the command line changes nothing but
    the level set: for given files and output path, how [main] ends and
    every event after the first are the same at all levels. *)
Theorem main_log_level_independent w users_path admin_path out :
  exists ending trace,
    forall lvl,
      main w {| user_permissions_file := users_path;
                effective_admin_permissions_file := admin_path;
                output_file := out;
                log_level := lvl |}
      = (ending, SetLevel lvl :: trace).
Proof.
  unfold main. cbn [user_permissions_file effective_admin_permissions_file
                    output_file log_level].
  do 2 eexists. intros lvl. rewrite and_then_perform. cbv beta.
  reflexivity.
Qed.

Lemma shown_In cur trace r :
  (forall l, ~ In (SetLevel l) trace) ->
  In r (shown cur trace) ->
  In (Logged r) trace /\ (level_num cur <= level_num (fst r))%Z.
Proof.
  induction trace as [|e trace IH]; intros Hno Hin; [destruct Hin|].
  assert (Hno' : forall l, ~ In (SetLevel l) trace)
    by (intros l H; apply (Hno l); now right).
  destruct e as [r'|l| | |]; cbn [shown] in Hin.
  - destruct (Z.leb_spec (level_num cur) (level_num (fst r'))) as [Hle|Hlt].
    + destruct Hin as [<-|Hin]; [split; [now left | assumption]|].
      destruct (IH Hno' Hin). split; [now right | assumption].
    + destruct (IH Hno' Hin). split; [now right | assumption].
  - destruct (Hno l). now left.
  - destruct (IH Hno' Hin). split; [now right | assumption].
  - destruct (IH Hno' Hin). split; [now right | assumption].
  - destruct (IH Hno' Hin). split; [now right | assumption].
Qed.

(** After the change of level a run of [main] sets no other level, and
    logs at INFO, WARNING and ERROR only. *)
Lemma main_trace_levels w a :
  exists rest,
    snd (main w a) = SetLevel (log_level a) :: rest /\
    (forall l, ~ In (SetLevel l) rest) /\
    (forall r, In (Logged r) rest -> plain_record r = true).
Proof.
  assert (Hlg : forall lg e,
             forallb plain_record lg = true -> In e (map Logged lg) ->
             exists r, e = Logged r /\ plain_record r = true).
  { intros lg e Hp Hin. apply in_map_iff in Hin as (r & <- & Hr).
    rewrite forallb_forall in Hp. eauto. }
  assert (Hrest : forall rest,
             (forall e, In e rest ->
                (exists path content, e = Wrote path content) \/
                (exists r, e = Logged r /\ plain_record r = true) \/
                is_print e = true) ->
             (forall l, ~ In (SetLevel l) rest) /\
             (forall r, In (Logged r) rest -> plain_record r = true)).
  { intros rest H. split.
    - intros l Hin.
      destruct (H _ Hin) as [(? & ? & Heq)|[(? & Heq & _)|Heq]];
        discriminate.
    - intros r Hin.
      destruct (H _ Hin) as [(? & ? & Heq)|[(r' & Heq & Hr)|Heq]];
        try discriminate.
      injection Heq as ->. exact Hr. }
  destruct (main_cases w a) as [(s & lg & -> & Hp)|(lg & res & -> & Hp)];
    eexists; (split; [reflexivity|]); apply Hrest; intros e Hin.
  - right. left. eapply Hlg; eassumption.
  - apply in_app_or in Hin as [Hin|Hin].
    + right. left. eapply Hlg; eassumption.
    + apply in_app_or in Hin as [Hin|Hin].
      * apply saving_records in Hin as [Hin|Hin]; [now left|].
        right. now left.
      * destruct (display_results_cases w res) as [(e' & Hd & He)|(x & Hd)];
          rewrite Hd in Hin; cbn [snd] in Hin.
        -- destruct Hin as [<-|[]]. right. now right.
        -- destruct Hin.
Qed.

(** X19. What a run of [main] leaves on the log stream: only records at
    or above the level given on the command line, and only records of
    level INFO, WARNING or ERROR; so at level CRITICAL the program is
    silent there, also when it exits with an error. *)
Theorem main_log_stream_levels w a r :
  In r (log_stream (snd (main w a))) ->
  (level_num (log_level a) <= level_num (fst r))%Z /\
  plain_record r = true.
Proof.
  destruct (main_trace_levels w a) as (rest & -> & Hno & Hplain).
  unfold log_stream. cbn [shown]. intros Hin.
  apply shown_In in Hin as [Hin Hle]; [|exact Hno].
  split; [exact Hle | exact (Hplain _ Hin)].
Qed.

Lemma main_log_stream_levels_witness :
  In (INFO, "User alice identified as a shadow admin.")
    (log_stream
       (snd (main demo_world (demo_args "users.json" "admin.json" None))))
  /\
  (level_num (log_level (demo_args "users.json" "admin.json" None))
   <= level_num (fst (INFO, "User alice identified as a shadow admin.")))%Z
  /\
  plain_record (INFO, "User alice identified as a shadow admin.") = true.
Proof.
  assert (Hin : In (INFO, "User alice identified as a shadow admin.")
                  (log_stream
                     (snd (main demo_world
                             (demo_args "users.json" "admin.json" None)))))
    by (left; reflexivity).
  split; [exact Hin|].
  exact (@main_log_stream_levels demo_world
           (demo_args "users.json" "admin.json" None)
           (INFO, "User alice identified as a shadow admin.") Hin).
Defined.
